(** * best: Bayesian estimation for two groups

    A shallow embedding of [best/__init__.py] (the model builder
    [make_model] and the posterior summarizer [hdi_of_mcmc],
    [calculate_sample_statistics]) and the properties of its specification.

    Conventions of the embedding.
    - A float is an exact rational ([Q]); arithmetic is unrounded and
      does not overflow.  Only [np.std] leaves the rationals (a square
      root): its value is a real number ([R]).  The one nan of the code,
      the mean and the standard deviation of an empty array, is the
      [None] of [float].
    - A one-dimensional numpy array is a [list Q]; integers (lengths,
      indices, slice bounds) are [Z], so that Python's negative indices are
      written out.
    - A raised exception is the [Raise] branch of [result]; the constructors
      of [exception] are the Python classes the code can raise.
    - The library calls ([np.sort], [np.argmin], slicing, broadcasting,
      [np.linspace], [scipy.stats.gaussian_kde], the [pm.*] constructors)
      are modelled by what they return or raise on the arguments the code
      gives them; for [pm.*] this is the registration of the variable
      under its name, which pymc3 refuses for a name that is taken and
      for a distribution without a finite default value. *)

From Stdlib Require Import String List ZArith QArith Qround Bool Lia Lqa.
From Stdlib Require Import Sorting.Sorted Sorting.Permutation.
From Stdlib Require Import Reals Qreals Lra.
Import ListNotations.

Local Open Scope Z_scope.
Local Open Scope Q_scope.

(** ** Python: exceptions and results *)

Module Python.

Inductive exception : Type :=
| AssertionError (msg : string)
| ValueError (msg : string)
| IndexError (msg : string)
| KeyError (msg : string)
| AttributeError (msg : string).

Inductive result (A : Type) : Type :=
| Ok (a : A)
| Raise (e : exception).
Arguments Ok {A} a.
Arguments Raise {A} e.

Definition bind {A B : Type} (c : result A) (k : A -> result B) : result B :=
  match c with
  | Ok a => k a
  | Raise e => Raise e
  end.

(** [assert cond, msg] *)
Definition assert (cond : bool) (msg : string) : result unit :=
  if cond then Ok tt else Raise (AssertionError msg).

(** [len(a)] *)
Definition len {A : Type} (a : list A) : Z := Z.of_nat (length a).

(** A slice bound [k] of a sequence of length [n], as Python clamps it:
    a negative bound counts from the end. *)
Definition clamp (n : nat) (k : Z) : nat :=
  if (k <? 0)%Z then Z.to_nat (Z.of_nat n + k) else Nat.min (Z.to_nat k) n.

(** [a[k:]] *)
Definition slice_from {A : Type} (a : list A) (k : Z) : list A :=
  skipn (clamp (length a) k) a.

(** [a[:k]] *)
Definition slice_to {A : Type} (a : list A) (k : Z) : list A :=
  firstn (clamp (length a) k) a.

(** [a[i]] on a one-dimensional array: indices [-n .. n-1] are valid. *)
Definition getitem {A : Type} (a : list A) (i : Z) : result A :=
  let j := if (i <? 0)%Z then (Z.of_nat (length a) + i)%Z else i in
  if (j <? 0)%Z then Raise (IndexError "index out of bounds")
  else match nth_error a (Z.to_nat j) with
       | Some x => Ok x
       | None => Raise (IndexError "index out of bounds")
       end.

End Python.
Import Python.

Declare Scope py_scope.
Notation "x <- c ;; k" := (bind c (fun x => k))
  (at level 61, c at next level, right associativity) : py_scope.
Notation "' p <- c ;; k" := (bind c (fun x => match x with p => k end))
  (at level 61, p pattern, c at next level, right associativity) : py_scope.
Notation "c ;; k" := (bind c (fun _ => k))
  (at level 61, right associativity) : py_scope.
Local Open Scope py_scope.

(** ** numpy on one-dimensional float arrays *)

Module Numpy.

Fixpoint insert (x : Q) (l : list Q) : list Q :=
  match l with
  | [] => [x]
  | y :: r => if Qle_bool x y then x :: l else y :: insert x r
  end.

(** [np.sort(a)]: the elements of [a] in ascending order. *)
Definition np_sort (a : list Q) : list Q := fold_right insert [] a.

(** [a - b] for one-dimensional arrays: elementwise on equal shapes, an
    array of one element is broadcast, other shapes do not match. *)
Definition np_sub (a b : list Q) : result (list Q) :=
  if (length a =? length b)%nat then Ok (map (fun p => fst p - snd p) (combine a b))
  else match a, b with
       | [x], _ => Ok (map (fun y => x - y) b)
       | _, [y] => Ok (map (fun x => x - y) a)
       | _, _ => Raise (ValueError "operands could not be broadcast together")
       end.

(** The scan of [np.argmin]: [best_i] is the index of the least value
    [best] seen so far, [i] the index of the head of [l]; a later value
    replaces the best one only when it is strictly smaller. *)
Fixpoint argmin_scan (best_i : nat) (best : Q) (i : nat) (l : list Q) : nat :=
  match l with
  | [] => best_i
  | x :: r =>
      if Qle_bool best x then argmin_scan best_i best (S i) r
      else argmin_scan i x (S i) r
  end.

(** [np.argmin(a)]: the index of the first occurrence of the minimum. *)
Definition np_argmin (a : list Q) : result Z :=
  match a with
  | [] => Raise (ValueError "attempt to get argmin of an empty sequence")
  | x :: r => Ok (Z.of_nat (argmin_scan 0 x 1 r))
  end.

Fixpoint argmax_scan (best_i : nat) (best : Q) (i : nat) (l : list Q) : nat :=
  match l with
  | [] => best_i
  | x :: r =>
      if Qle_bool x best then argmax_scan best_i best (S i) r
      else argmax_scan i x (S i) r
  end.

(** [np.argmax(a)]: the index of the first occurrence of the maximum. *)
Definition np_argmax (a : list Q) : result Z :=
  match a with
  | [] => Raise (ValueError "attempt to get argmax of an empty sequence")
  | x :: r => Ok (Z.of_nat (argmax_scan 0 x 1 r))
  end.

(** [np.min(a)] and [np.max(a)] *)
Definition np_min (a : list Q) : result Q :=
  match a with
  | [] => Raise (ValueError "zero-size array to reduction operation minimum which has no identity")
  | x :: r => Ok (fold_left (fun m y => if Qle_bool m y then m else y) r x)
  end.

Definition np_max (a : list Q) : result Q :=
  match a with
  | [] => Raise (ValueError "zero-size array to reduction operation maximum which has no identity")
  | x :: r => Ok (fold_left (fun m y => if Qle_bool y m then m else y) r x)
  end.

Definition np_sum (a : list Q) : Q := fold_right Qplus 0 a.

(** [np.mean(a)] of a non-empty array; where the array of the code can be
    empty, its mean is the nan of [np_mean_float]. *)
Definition np_mean (a : list Q) : Q := np_sum a / inject_Z (len a).

(** [int(np.floor(x))] *)
Definition np_floor (x : Q) : Z := Qfloor x.

(** [np.linspace(start, stop, num)]: [num] samples, the step being
    [(stop - start) / (num - 1)], the last sample set to [stop]. *)
Definition np_linspace (start stop : Q) (num : nat) : list Q :=
  match num with
  | O => []
  | 1%nat => [start]
  | S div =>
      let step := (stop - start) / inject_Z (Z.of_nat div) in
      map (fun i => start + inject_Z (Z.of_nat i) * step) (seq 0 div) ++ [stop]
  end.

End Numpy.
Import Numpy.

(** ** The posterior summarizer: highest density interval *)

(** [hdi_of_mcmc(sample_vec, cred_mass)] *)
Definition hdi_of_mcmc (sample_vec : list Q) (cred_mass : Q) : result (Q * Q) :=
  assert (negb (len sample_vec =? 0)%Z) "need points to find HDI" ;;
  let sorted_pts := np_sort sample_vec in
  let ci_idx_inc := np_floor (cred_mass * inject_Z (len sorted_pts)) in
  let n_cis := (len sorted_pts - ci_idx_inc)%Z in
  ci_width <- np_sub (slice_from sorted_pts ci_idx_inc) (slice_to sorted_pts n_cis) ;;
  min_idx <- np_argmin ci_width ;;
  hdi_min <- getitem sorted_pts min_idx ;;
  hdi_max <- getitem sorted_pts (min_idx + ci_idx_inc)%Z ;;
  Ok (hdi_min, hdi_max).

(** The default [cred_mass=0.95]. *)
Definition default_cred_mass : Q := 95 # 100.

(** ** scipy.stats.gaussian_kde *)

Module Scipy.

(** A fitted estimator: [covariance_factor] is the value of
    [kernel.covariance_factor()], [pdf] the estimated density, which
    [kernel.evaluate] applies to each point of an array. *)
Record Kernel : Type := {
  covariance_factor : Q;
  pdf : Q -> Q
}.

Definition evaluate (kernel : Kernel) (points : list Q) : list Q :=
  map (pdf kernel) points.

Section Constructor.

(** The estimation proper (covariance of the data and its inverse),
    which scipy runs on a dataset of at least two elements and which
    can itself raise (a singular covariance). *)
Variable fit : list Q -> result Kernel.

(** [scipy.stats.gaussian_kde(dataset)]: the constructor first rejects
    a dataset that has not more than one element. *)
Definition gaussian_kde (dataset : list Q) : result Kernel :=
  if (length dataset <=? 1)%nat
  then Raise (ValueError "`dataset` input should have multiple elements.")
  else fit dataset.

End Constructor.

End Scipy.
Import Scipy.

(** ** The posterior summarizer: sample statistics *)

Record SampleStatistics : Type := {
  hdi_min : Q;
  hdi_max : Q;
  mean : Q;
  mode : Q
}.

Section Summarizer.

Variable kde_fit : list Q -> result Kernel.

(** [calculate_sample_statistics(sample_vec)] *)
Definition calculate_sample_statistics (sample_vec : list Q) : result SampleStatistics :=
  ' (hdi_min, hdi_max) <- hdi_of_mcmc sample_vec default_cred_mass ;;
  let mean_val := np_mean sample_vec in
  kernel <- gaussian_kde kde_fit sample_vec ;;
  let bw := covariance_factor kernel in
  let cut := 3 * bw in
  lo <- np_min sample_vec ;;
  let xlow := lo - cut * bw in
  hi <- np_max sample_vec ;;
  let xhigh := hi + cut * bw in
  let n := 512%nat in
  let x := np_linspace xlow xhigh n in
  let vals := evaluate kernel x in
  max_idx <- np_argmax vals ;;
  mode_val <- getitem x max_idx ;;
  Ok {| hdi_min := hdi_min; hdi_max := hdi_max; mean := mean_val; mode := mode_val |}.

End Summarizer.

(** ** The reference HDI algorithm of the specification

    Sort ascending; [n] the length, [k = floor(m * n)], [w = n - k]; the
    width of the window starting at [i] is [sorted[i+k] - sorted[i]] for
    [i] in [[0, w)]; [i*] is the lowest index of minimal width; the result
    is [(sorted[i*], sorted[i*+k])].  There is no result when there is no
    start index. *)
Definition hdi_reference (samples : list Q) (m : Q) : option (Q * Q) :=
  let sorted := np_sort samples in
  let n := length sorted in
  let k := Z.to_nat (Qfloor (m * inject_Z (Z.of_nat n))) in
  let w := (n - k)%nat in
  let width i := nth (i + k) sorted 0 - nth i sorted 0 in
  let minimal i := forallb (fun j => Qle_bool (width i) (width j)) (seq 0 w) in
  match find minimal (seq 0 w) with
  | Some i => Some (nth i sorted 0, nth (i + k) sorted 0)
  | None => None
  end.

(** What a caller sees of a result when the exception is not looked at. *)
Definition returned {A : Type} (r : result A) : option A :=
  match r with
  | Ok a => Some a
  | Raise _ => None
  end.

(** The number of samples in the closed interval [[lo, hi]]. *)
Definition count_in (lo hi : Q) (samples : list Q) : Z :=
  len (filter (fun x => Qle_bool lo x && Qle_bool x hi) samples).

(** ** Arrays of any dimension, dictionaries *)

(** A numpy array: its shape and its elements in row-major order (a
    one-dimensional array of [n] elements has shape [[n]]). *)
Record ndarray : Type := {
  shape : list nat;
  flat : list Q
}.

(** [a.ndim] *)
Definition ndim (a : ndarray) : nat := length (shape a).

(** The one-dimensional array of the elements [xs]. *)
Definition array1 (xs : list Q) : ndarray := {| shape := [length xs]; flat := xs |}.

(** [np.concatenate((a, b))] for one-dimensional [a] and [b]. *)
Definition np_concatenate (a b : ndarray) : ndarray := array1 (flat a ++ flat b).

(** [np.var(a)], the mean of the squared deviations from the mean. *)
Definition np_var (a : list Q) : Q :=
  np_mean (map (fun v => (v - np_mean a) * (v - np_mean a)) a).

(** [np.std(a)], the square root of the variance. *)
Definition np_std (a : list Q) : R := sqrt (Q2R (np_var a)).

(** A float that can be nan: [None] is nan. *)
Definition float : Type := option R.

(** [np.mean(a)] and [np.std(a)] on an array that can be empty: the mean
    and the standard deviation of an empty array are nan. *)
Definition np_mean_float (a : list Q) : float :=
  match a with
  | [] => None
  | _ :: _ => Some (Q2R (np_mean a))
  end.

Definition np_std_float (a : list Q) : float :=
  match a with
  | [] => None
  | _ :: _ => Some (np_std a)
  end.

(** [x * c] and [x / c] for a float [x] and a constant [c]. *)
Definition float_mul (x : float) (c : R) : float := option_map (fun v => (v * c)%R) x.

Definition float_div (x : float) (c : R) : float := option_map (fun v => (v / c)%R) x.

(** A Python [dict] with string keys, in insertion order; its keys are
    pairwise different. *)
Definition dict (V : Type) : Type := list (string * V).

Definition keys {V : Type} (d : dict V) : list string := map fst d.

Definition dict_wf {V : Type} (d : dict V) : Prop := NoDup (keys d).

(** [d[k]] *)
Fixpoint dict_get {V : Type} (d : dict V) (k : string) : result V :=
  match d with
  | [] => Raise (KeyError k)
  | (k', v) :: r => if String.eqb k' k then Ok v else dict_get r k
  end.

Fixpoint insert_key (x : string) (l : list string) : list string :=
  match l with
  | [] => [x]
  | y :: r => if String.leb x y then x :: l else y :: insert_key x r
  end.

(** [sorted(names)]: strings in ascending lexicographic order. *)
Definition sorted (names : list string) : list string := fold_right insert_key [] names.

(** [a, b = l] *)
Definition unpack2 {A : Type} (l : list A) : result (A * A) :=
  match l with
  | [a; b] => Ok (a, b)
  | [] | [_] => Raise (ValueError "not enough values to unpack")
  | _ => Raise (ValueError "too many values to unpack")
  end.

(** ** pymc3: the model under construction *)

Module Pymc3.

(** The symbolic expressions [make_model] builds: a constant, a random
    variable of the model by its name, [t ** e] and [t + u]. *)
Inductive tensor : Type :=
| Const (c : float)
| RandomVariable (name : string)
| Pow (t : tensor) (e : Z)
| Add (t u : tensor).

Inductive distribution : Type :=
| Normal (mu sd : tensor)
| Uniform (lower upper : tensor)
| Exponential (lam : tensor)
| StudentT (nu mu lam : tensor).

(** A named random variable: a latent one has no observed data. *)
Record node : Type := {
  name : string;
  dist : distribution;
  observed : option ndarray
}.

(** The model is the list of its random variables, in the order in which
    they were declared. *)
Definition Model : Type := list node.

(** The name of the transformed variable that pymc3 registers before a
    latent variable of a bounded or positive distribution. *)
Definition transformed_name (name : string) (dist : distribution)
  (observed : option ndarray) : list string :=
  match observed, dist with
  | None, Uniform _ _ => [String.append name "_interval__"]
  | None, Exponential _ => [String.append name "_log__"]
  | _, _ => []
  end.

(** The names that are taken in a model ([model.named_vars]). *)
Definition named_vars (model : Model) : list string :=
  flat_map (fun n => transformed_name (name n) (dist n) (observed n) ++ [name n]) model.

(** [model.add_random_variable] for the names of one declaration, one
    after the other: a name that is taken is refused. *)
Fixpoint add_random_variable (taken names : list string) : result unit :=
  match names with
  | [] => Ok tt
  | n :: rest =>
      if existsb (String.eqb n) taken
      then Raise (ValueError (String.append "Variable name "
                                (String.append n " already exists.")))
      else add_random_variable (taken ++ [n]) rest
  end.

(** A computation inside [with pm.Model() as model:], where every
    distribution that is declared is added to the model, or raises. *)
Definition pm (A : Type) : Type := Model -> result (A * Model).

Definition ret {A : Type} (a : A) : pm A := fun model => Ok (a, model).

Definition bind {A B : Type} (c : pm A) (k : A -> pm B) : pm B :=
  fun model =>
    match c model with
    | Ok (a, model') => k a model'
    | Raise e => Raise e
    end.

Definition declare (name : string) (dist : distribution) (observed : option ndarray)
  : pm tensor :=
  fun model =>
    match add_random_variable (named_vars model)
            (transformed_name name dist observed ++ [name]) with
    | Ok _ =>
        Ok (RandomVariable name,
            model ++ [{| name := name; dist := dist; observed := observed |}])
    | Raise e => Raise e
    end.

(** A latent variable starts at the default value of its distribution
    (the mean or the median), which has to be finite. *)
Definition finite_default (default : float) : result unit :=
  match default with
  | Some _ => Ok tt
  | None => Raise (AttributeError "no finite default value to use")
  end.

Definition latent_variable (name : string) (dist : distribution) (default : float)
  : pm tensor :=
  fun model =>
    match finite_default default with
    | Ok _ => declare name dist None model
    | Raise e => Raise e
    end.

(** [pm.Normal(name, mu=mu, sd=sd)]; the default value is [mu]. *)
Definition pm_Normal (name : string) (mu sd : float) : pm tensor :=
  latent_variable name (Normal (Const mu) (Const sd)) mu.

(** [pm.Uniform(name, lower=lower, upper=upper)]; the default value is
    [(upper + lower) / 2]. *)
Definition pm_Uniform (name : string) (lower upper : float) : pm tensor :=
  latent_variable name (Uniform (Const lower) (Const upper))
    (match lower, upper with
     | Some l, Some u => Some ((u + l) / 2)%R
     | _, _ => None
     end).

(** [pm.Exponential(name, lam)]; the default value is [1 / lam]. *)
Definition pm_Exponential (name : string) (lam : float) : pm tensor :=
  latent_variable name (Exponential (Const lam)) (option_map (fun l => (1 / l)%R) lam).

(** [pm.StudentT(name, observed=observed, nu=nu, mu=mu, lam=lam)] *)
Definition pm_StudentT (name : string) (observed : ndarray) (nu mu lam : tensor)
  : pm tensor :=
  declare name (StudentT nu mu lam) (Some observed).

(** [with pm.Model() as model: body], then [model]. *)
Definition with_Model (body : pm unit) : result Model :=
  match body [] with
  | Ok (_, model) => Ok model
  | Raise e => Raise e
  end.

End Pymc3.
Import Pymc3.

Declare Scope pm_scope.
Delimit Scope pm_scope with pm.
Notation "x <- c ;; k" := (Pymc3.bind c (fun x => k))
  (at level 61, c at next level, right associativity) : pm_scope.

(** ** The model builder *)

(** [make_model(data)] *)
Definition make_model (data : dict ndarray) : result Model :=
  assert (len data =? 2)%Z "There must be exactly two data arrays" ;;
  ' (name1, name2) <- unpack2 (sorted (keys data)) ;;
  y1 <- dict_get data name1 ;;
  y2 <- dict_get data name2 ;;
  assert (ndim y1 =? 1)%nat "" ;;
  assert (ndim y2 =? 1)%nat "" ;;
  let y := np_concatenate y1 y2 in
  let mu_m := np_mean_float (flat y) in
  let mu_scale := float_mul (np_std_float (flat y)) 1000 in
  let sigma_low := float_div (np_std_float (flat y)) 1000 in
  let sigma_high := float_mul (np_std_float (flat y)) 1000 in
  with_Model
    (group1_mean <- pm_Normal "group1_mean" mu_m mu_scale ;;
     group2_mean <- pm_Normal "group2_mean" mu_m mu_scale ;;
     group1_std <- pm_Uniform "group1_std" sigma_low sigma_high ;;
     group2_std <- pm_Uniform "group2_std" sigma_low sigma_high ;;
     let lambda_1 := Pow group1_std (-2) in
     let lambda_2 := Pow group2_std (-2) in
     nu_minus_one <- pm_Exponential "nu_minus_one" (Some (1 / 29)%R) ;;
     let nu := Add nu_minus_one (Const (Some 1%R)) in
     _ <- pm_StudentT name1 y1 nu group1_mean lambda_1 ;;
     _ <- pm_StudentT name2 y2 nu group2_mean lambda_2 ;;
     ret tt)%pm.

(** The block [with pm.Model() as model:] of [make_model], by the pooled
    mean [mu_m], the pooled standard deviation [sigma] and the two groups
    in the order of their names. *)
Definition model_block
  (mu_m sigma : float) (name1 : string) (y1 : ndarray) (name2 : string) (y2 : ndarray)
  : result Model :=
  let mu_scale := float_mul sigma 1000 in
  let sigma_low := float_div sigma 1000 in
  let sigma_high := float_mul sigma 1000 in
  with_Model
    (group1_mean <- pm_Normal "group1_mean" mu_m mu_scale ;;
     group2_mean <- pm_Normal "group2_mean" mu_m mu_scale ;;
     group1_std <- pm_Uniform "group1_std" sigma_low sigma_high ;;
     group2_std <- pm_Uniform "group2_std" sigma_low sigma_high ;;
     let lambda_1 := Pow group1_std (-2) in
     let lambda_2 := Pow group2_std (-2) in
     nu_minus_one <- pm_Exponential "nu_minus_one" (Some (1 / 29)%R) ;;
     let nu := Add nu_minus_one (Const (Some 1%R)) in
     _ <- pm_StudentT name1 y1 nu group1_mean lambda_1 ;;
     _ <- pm_StudentT name2 y2 nu group2_mean lambda_2 ;;
     ret tt)%pm.

(** The pooled observations of a dataset: the arrays of its groups, in the
    order of the sorted group names, one after the other. *)
Definition pooled (data : dict ndarray) : list Q :=
  flat_map (fun k => match dict_get data k with
                     | Ok y => flat y
                     | Raise _ => []
                     end)
           (sorted (keys data)).

(** ** The model specification of the two-group comparison

    The specification as its description has it, for the pooled mean
    [mu_m], the pooled standard deviation [sigma] and the two groups in the
    order of their names: two means with the prior Normal([mu_m],
    1000 [sigma]), two standard deviations with the prior
    Uniform([sigma]/1000, 1000 [sigma]), the shared [nu_minus_one] with the
    prior Exponential(1/29), and one Student-t likelihood per group, with
    [nu_minus_one + 1] degrees of freedom, the mean of the group and the
    precision [group_std ** -2], on the observed array of the group. *)
Definition latent (name : string) (prior : distribution) : node :=
  {| name := name; dist := prior; observed := None |}.

Definition likelihood (name : string) (d : distribution) (y : ndarray) : node :=
  {| name := name; dist := d; observed := Some y |}.

(** The constant tensor of a number. *)
Definition num (x : R) : tensor := Const (Some x).

Definition two_group_specification
  (mu_m sigma : R) (name1 : string) (y1 : ndarray) (name2 : string) (y2 : ndarray)
  : Model :=
  let nu := Add (RandomVariable "nu_minus_one") (num 1) in
  [ latent "group1_mean" (Normal (num mu_m) (num (sigma * 1000)));
    latent "group2_mean" (Normal (num mu_m) (num (sigma * 1000)));
    latent "group1_std" (Uniform (num (sigma / 1000)) (num (sigma * 1000)));
    latent "group2_std" (Uniform (num (sigma / 1000)) (num (sigma * 1000)));
    latent "nu_minus_one" (Exponential (num (1 / 29)));
    likelihood name1
      (StudentT nu (RandomVariable "group1_mean") (Pow (RandomVariable "group1_std") (-2)))
      y1;
    likelihood name2
      (StudentT nu (RandomVariable "group2_mean") (Pow (RandomVariable "group2_std") (-2)))
      y2 ].

(** The names of the five latent variables of the model, and all the
    names that are taken when the likelihoods are declared: those of the
    latent variables and of their transformed variables. *)
Definition latent_names : list string :=
  ["group1_mean"; "group2_mean"; "group1_std"; "group2_std"; "nu_minus_one"]%string.

Definition model_variable_names : list string :=
  ["group1_mean"; "group2_mean"; "group1_std_interval__"; "group1_std";
   "group2_std_interval__"; "group2_std"; "nu_minus_one_log__"; "nu_minus_one"]%string.

(** ** Instances *)

(** Two groups of observations. *)
Definition two_groups : dict ndarray :=
  [("drug"%string, array1 [101; 100; 102; 104]); ("placebo"%string, array1 [99; 101; 100; 98])].


(** Two groups, one without observations. *)
Definition empty_group : dict ndarray :=
  [("a"%string, array1 []); ("b"%string, array1 [1; 2])].


(** Two groups without observations. *)
Definition empty_groups : dict ndarray :=
  [("a"%string, array1 []); ("b"%string, array1 [])].

(** Three groups. *)
Definition three_groups : dict ndarray :=
  [("a"%string, array1 [1]); ("b"%string, array1 [2]); ("c"%string, array1 [3])].

(** An estimator for the instances: one bump at the mean of the data. *)
Definition bump_fit (dataset : list Q) : result Kernel :=
  Ok {| covariance_factor := 1 # 2;
        pdf := fun x => 1 / (1 + (x - np_mean dataset) * (x - np_mean dataset)) |}.

(** A small posterior sample for the instances below. *)
Definition draws : list Q := [3; 1; 2; 10; 4].

(** The observed random variables of a model. *)
Definition observed_nodes (model : Model) : list node :=
  filter (fun n => match observed n with None => false | Some _ => true end) model.

(** ** Predicates of the statements *)

(** [j] is the first position of a least element of [a]. *)
Definition first_min (a : list Q) (j : nat) : Prop :=
  (j < length a)%nat /\
  (forall i, (i < length a)%nat -> nth j a 0 <= nth i a 0) /\
  (forall i, (i < j)%nat -> nth j a 0 < nth i a 0).

(** [j] is the first position of a greatest element of [a]. *)
Definition first_max (a : list Q) (j : nat) : Prop :=
  (j < length a)%nat /\
  (forall i, (i < length a)%nat -> nth i a 0 <= nth j a 0) /\
  (forall i, (i < j)%nat -> nth i a 0 < nth j a 0).

(** [x] holds [n] equally spaced points, from [lo] to [hi]. *)
Definition equally_spaced (x : list Q) (lo hi : Q) (n : nat) : Prop :=
  length x = n /\
  nth 0 x 0 == lo /\
  nth (n - 1) x 0 == hi /\
  forall i, (S i < n)%nat ->
    nth (S i) x 0 - nth i x 0 == (hi - lo) / inject_Z (Z.of_nat (n - 1)).

(** [m] is the least element of [a]; [m] is the greatest element of [a]. *)
Definition least_of (a : list Q) (m : Q) : Prop :=
  In m a /\ forall v, In v a -> m <= v.

Definition greatest_of (a : list Q) (m : Q) : Prop :=
  In m a /\ forall v, In v a -> v <= m.

(** The widths of the windows of [k + 1] consecutive elements of [s]. *)
Definition window_widths (s : list Q) (k : nat) : list Q :=
  map (fun p => fst p - snd p) (combine (skipn k s) (firstn (length s - k) s)).

(** ** Runs on the instances *)

Example hdi_of_mcmc_half : hdi_of_mcmc draws (1 # 2) = Ok (1, 3).
Proof. reflexivity. Qed.

Example hdi_of_mcmc_default : hdi_of_mcmc draws default_cred_mass = Ok (1, 10).
Proof. reflexivity. Qed.

Example hdi_reference_half : hdi_reference draws (1 # 2) = Some (1, 3).
Proof. reflexivity. Qed.

Example hdi_of_mcmc_full_mass :
  hdi_of_mcmc draws 1 = Raise (ValueError "attempt to get argmin of an empty sequence").
Proof. reflexivity. Qed.

Example np_linspace_five : np_linspace 0 1 5 = [0 # 4; 1 # 4; 2 # 4; 3 # 4; 1].
Proof. reflexivity. Qed.

Example make_model_no_observations :
  make_model empty_groups = Raise (AttributeError "no finite default value to use").
Proof. reflexivity. Qed.

(** ** Lemmas on the library model *)

Section SortFacts.

Lemma insert_perm (x : Q) (l : list Q) : Permutation (insert x l) (x :: l).
Proof.
  induction l as [|y r IH]; simpl.
  - apply Permutation_refl.
  - destruct (Qle_bool x y).
    + apply Permutation_refl.
    + apply perm_trans with (y :: x :: r).
      * now apply perm_skip.
      * apply perm_swap.
Qed.

Lemma np_sort_perm (a : list Q) : Permutation (np_sort a) a.
Proof.
  induction a as [|x r IH]; simpl.
  - apply perm_nil.
  - apply perm_trans with (x :: np_sort r).
    + apply insert_perm.
    + now apply perm_skip.
Qed.

Lemma np_sort_length (a : list Q) : length (np_sort a) = length a.
Proof. apply Permutation_length, np_sort_perm. Qed.

Lemma insert_sorted (x : Q) (l : list Q) :
  StronglySorted Qle l -> StronglySorted Qle (insert x l).
Proof.
  induction 1 as [|y r Hr IH Hy]; simpl.
  - constructor; constructor.
  - destruct (Qle_bool x y) eqn:E.
    + apply Qle_bool_iff in E.
      constructor; [now constructor|].
      constructor; [exact E|].
      rewrite Forall_forall in Hy |- *.
      intros z Hz. apply Qle_trans with y; auto.
    + assert (Hyx : y <= x).
      { destruct (Qlt_le_dec y x) as [H|H]; [now apply Qlt_le_weak|].
        apply Qle_bool_iff in H. congruence. }
      constructor; [exact IH|].
      rewrite Forall_forall in Hy |- *.
      intros z Hz.
      apply (Permutation_in _ (insert_perm x r)) in Hz.
      destruct Hz as [<-|Hz]; auto.
Qed.

Lemma np_sort_sorted (a : list Q) : StronglySorted Qle (np_sort a).
Proof.
  induction a as [|x r IH]; simpl.
  - constructor.
  - now apply insert_sorted.
Qed.

(** In an ascending list a later position holds a value at least as
    large. *)
Lemma sorted_nth_le (l : list Q) :
  StronglySorted Qle l ->
  forall i j, (i <= j)%nat -> (j < length l)%nat -> nth i l 0 <= nth j l 0.
Proof.
  induction 1 as [|y r Hr IH Hy]; intros i j Hij Hj; simpl in Hj.
  - lia.
  - destruct i as [|i], j as [|j]; simpl.
    + apply Qle_refl.
    + rewrite Forall_forall in Hy. apply Hy, nth_In. lia.
    + lia.
    + apply IH; lia.
Qed.

End SortFacts.

Section ScanFacts.

Lemma first_min_snoc_keep (pre : list Q) (j : nat) (x : Q) :
  first_min pre j -> nth j pre 0 <= x -> first_min (pre ++ [x]) j.
Proof.
  intros (Hj & Hmin & Hfirst) Hx.
  unfold first_min. rewrite length_app. simpl.
  rewrite (app_nth1 pre [x] 0 Hj).
  split; [lia|]. split.
  - intros i Hi. destruct (Nat.lt_ge_cases i (length pre)) as [Hlt|Hge].
    + rewrite (app_nth1 pre [x] 0 Hlt). now apply Hmin.
    + rewrite (app_nth2 pre [x] 0 Hge).
      replace (i - length pre)%nat with 0%nat by lia. exact Hx.
  - intros i Hi. rewrite app_nth1 by lia. now apply Hfirst.
Qed.

Lemma first_min_snoc_new (pre : list Q) (j : nat) (x : Q) :
  first_min pre j -> x < nth j pre 0 -> first_min (pre ++ [x]) (length pre).
Proof.
  intros (Hj & Hmin & Hfirst) Hx.
  unfold first_min. rewrite length_app. simpl.
  rewrite (app_nth2 pre [x] 0 (Nat.le_refl _)), Nat.sub_diag. simpl.
  split; [lia|]. split.
  - intros i Hi. destruct (Nat.lt_ge_cases i (length pre)) as [Hlt|Hge].
    + rewrite (app_nth1 pre [x] 0 Hlt).
      apply Qlt_le_weak, Qlt_le_trans with (nth j pre 0); auto.
    + rewrite (app_nth2 pre [x] 0 Hge).
      replace (i - length pre)%nat with 0%nat by lia. apply Qle_refl.
  - intros i Hi. rewrite (app_nth1 pre [x] 0 Hi).
    apply Qlt_le_trans with (nth j pre 0); auto.
Qed.

Lemma argmin_scan_spec (l pre : list Q) (j : nat) :
  first_min pre j ->
  first_min (pre ++ l) (argmin_scan j (nth j pre 0) (length pre) l).
Proof.
  revert pre j. induction l as [|x r IH]; intros pre j H; simpl.
  - now rewrite app_nil_r.
  - replace (pre ++ x :: r) with ((pre ++ [x]) ++ r) by now rewrite <- app_assoc.
    destruct (Qle_bool (nth j pre 0) x) eqn:E.
    + apply Qle_bool_iff in E.
      pose proof (first_min_snoc_keep pre j x H E) as H'.
      specialize (IH _ _ H').
      destruct H as (Hj & _).
      rewrite (app_nth1 pre [x] 0 Hj), length_app, Nat.add_comm in IH. exact IH.
    + assert (Hx : x < nth j pre 0).
      { destruct (Qlt_le_dec x (nth j pre 0)) as [Hlt|Hle]; [exact Hlt|].
        apply Qle_bool_iff in Hle. congruence. }
      pose proof (first_min_snoc_new pre j x H Hx) as H'.
      specialize (IH _ _ H').
      rewrite (app_nth2 pre [x] 0 (Nat.le_refl _)), Nat.sub_diag in IH.
      rewrite length_app, Nat.add_comm in IH. exact IH.
Qed.

Lemma first_min_singleton (x : Q) : first_min [x] 0.
Proof.
  unfold first_min; simpl. split; [lia|]. split.
  - intros i Hi. replace i with 0%nat by lia. apply Qle_refl.
  - intros i Hi. lia.
Qed.

(** [np.argmin] of a non-empty array is the first position of its
    minimum. *)
Lemma np_argmin_spec (a : list Q) :
  a <> [] -> exists j, np_argmin a = Ok (Z.of_nat j) /\ first_min a j.
Proof.
  destruct a as [|x r]; [congruence|]. intros _.
  exists (argmin_scan 0 x 1 r). split; [reflexivity|].
  apply (argmin_scan_spec r [x] 0%nat), first_min_singleton.
Qed.

Lemma first_min_unique (a : list Q) (i j : nat) :
  first_min a i -> first_min a j -> i = j.
Proof.
  intros (Hi & Hmi & Hfi) (Hj & Hmj & Hfj).
  destruct (Nat.lt_trichotomy i j) as [H|[H|H]]; [|exact H|].
  - specialize (Hfj i H). specialize (Hmi j Hj).
    exfalso. apply (Qlt_irrefl (nth j a 0)). eapply Qlt_le_trans; eauto.
  - specialize (Hfi j H). specialize (Hmj i Hi).
    exfalso. apply (Qlt_irrefl (nth i a 0)). eapply Qlt_le_trans; eauto.
Qed.

End ScanFacts.

Section ArgmaxFacts.

Lemma first_max_snoc_keep (pre : list Q) (j : nat) (x : Q) :
  first_max pre j -> x <= nth j pre 0 -> first_max (pre ++ [x]) j.
Proof.
  intros (Hj & Hmax & Hfirst) Hx.
  unfold first_max. rewrite length_app. simpl.
  rewrite (app_nth1 pre [x] 0 Hj).
  split; [lia|]. split.
  - intros i Hi. destruct (Nat.lt_ge_cases i (length pre)) as [Hlt|Hge].
    + rewrite (app_nth1 pre [x] 0 Hlt). now apply Hmax.
    + rewrite (app_nth2 pre [x] 0 Hge).
      replace (i - length pre)%nat with 0%nat by lia. exact Hx.
  - intros i Hi. rewrite app_nth1 by lia. now apply Hfirst.
Qed.

Lemma first_max_snoc_new (pre : list Q) (j : nat) (x : Q) :
  first_max pre j -> nth j pre 0 < x -> first_max (pre ++ [x]) (length pre).
Proof.
  intros (Hj & Hmax & Hfirst) Hx.
  unfold first_max. rewrite length_app. simpl.
  rewrite (app_nth2 pre [x] 0 (Nat.le_refl _)), Nat.sub_diag. simpl.
  split; [lia|]. split.
  - intros i Hi. destruct (Nat.lt_ge_cases i (length pre)) as [Hlt|Hge].
    + rewrite (app_nth1 pre [x] 0 Hlt).
      apply Qlt_le_weak, Qle_lt_trans with (nth j pre 0); auto.
    + rewrite (app_nth2 pre [x] 0 Hge).
      replace (i - length pre)%nat with 0%nat by lia. apply Qle_refl.
  - intros i Hi. rewrite (app_nth1 pre [x] 0 Hi).
    apply Qle_lt_trans with (nth j pre 0); auto.
Qed.

Lemma argmax_scan_spec (l pre : list Q) (j : nat) :
  first_max pre j ->
  first_max (pre ++ l) (argmax_scan j (nth j pre 0) (length pre) l).
Proof.
  revert pre j. induction l as [|x r IH]; intros pre j H; simpl.
  - now rewrite app_nil_r.
  - replace (pre ++ x :: r) with ((pre ++ [x]) ++ r) by now rewrite <- app_assoc.
    destruct (Qle_bool x (nth j pre 0)) eqn:E.
    + apply Qle_bool_iff in E.
      pose proof (first_max_snoc_keep pre j x H E) as H'.
      specialize (IH _ _ H').
      destruct H as (Hj & _).
      rewrite (app_nth1 pre [x] 0 Hj), length_app, Nat.add_comm in IH. exact IH.
    + assert (Hx : nth j pre 0 < x).
      { destruct (Qlt_le_dec (nth j pre 0) x) as [Hlt|Hle]; [exact Hlt|].
        apply Qle_bool_iff in Hle. congruence. }
      pose proof (first_max_snoc_new pre j x H Hx) as H'.
      specialize (IH _ _ H').
      rewrite (app_nth2 pre [x] 0 (Nat.le_refl _)), Nat.sub_diag in IH.
      rewrite length_app, Nat.add_comm in IH. exact IH.
Qed.

(** [np.argmax] of a non-empty array is the first position of its
    maximum. *)
Lemma np_argmax_spec (a : list Q) :
  a <> [] -> exists j, np_argmax a = Ok (Z.of_nat j) /\ first_max a j.
Proof.
  destruct a as [|x r]; [congruence|]. intros _.
  exists (argmax_scan 0 x 1 r). split; [reflexivity|].
  apply (argmax_scan_spec r [x] 0%nat).
  unfold first_max; simpl. split; [lia|]. split.
  - intros i Hi. replace i with 0%nat by lia. apply Qle_refl.
  - intros i Hi. lia.
Qed.

End ArgmaxFacts.

Section SliceFacts.

Lemma getitem_nth (a : list Q) (i : nat) :
  (i < length a)%nat -> getitem a (Z.of_nat i) = Ok (nth i a 0).
Proof.
  intros Hi.
  assert (E : (Z.of_nat i <? 0)%Z = false) by (apply Z.ltb_ge; lia).
  unfold getitem. cbv zeta. rewrite !E.
  rewrite Nat2Z.id, (nth_error_nth' a 0 Hi). reflexivity.
Qed.

Lemma window_widths_length (s : list Q) (k : nat) :
  length (window_widths s k) = (length s - k)%nat.
Proof.
  unfold window_widths.
  rewrite length_map, length_combine, length_skipn, length_firstn. lia.
Qed.

Lemma window_widths_nth (s : list Q) (k i : nat) :
  (i < length s - k)%nat ->
  nth i (window_widths s k) 0 = nth (i + k) s 0 - nth i s 0.
Proof.
  intros Hi. unfold window_widths.
  set (f := fun p : Q * Q => fst p - snd p).
  rewrite (nth_indep _ 0 (f (0, 0))).
  2:{ rewrite length_map, length_combine, length_skipn, length_firstn. lia. }
  rewrite (map_nth f), combine_nth.
  2:{ rewrite length_skipn, length_firstn. lia. }
  rewrite nth_skipn, nth_firstn.
  destruct (Nat.ltb_spec i (length s - k)) as [_|H]; [|lia].
  unfold f; simpl. now rewrite Nat.add_comm.
Qed.

(** The two slices of [hdi_of_mcmc] for an increment [k] in [[0, n)]. *)
Lemma np_sub_slices (s : list Q) (k : Z) :
  (0 <= k < len s)%Z ->
  np_sub (slice_from s k) (slice_to s (len s - k)) =
  Ok (window_widths s (Z.to_nat k)).
Proof.
  intros Hk. unfold len in *.
  unfold slice_from, slice_to, clamp.
  destruct (Z.ltb_spec k 0) as [H|_]; [lia|].
  destruct (Z.ltb_spec (Z.of_nat (length s) - k) 0) as [H|_]; [lia|].
  replace (Nat.min (Z.to_nat k) (length s)) with (Z.to_nat k) by lia.
  replace (Nat.min (Z.to_nat (Z.of_nat (length s) - k)) (length s))
    with (length s - Z.to_nat k)%nat by lia.
  unfold np_sub.
  rewrite length_skipn, length_firstn.
  replace (Nat.min (length s - Z.to_nat k) (length s))
    with (length s - Z.to_nat k)%nat by lia.
  rewrite Nat.eqb_refl. reflexivity.
Qed.

End SliceFacts.

(** ** The highest density interval *)

Section HdiFacts.

Lemma len_np_sort (a : list Q) : len (np_sort a) = len a.
Proof. unfold len. now rewrite np_sort_length. Qed.

(** [floor(m * n)] for a mass [m] in [[0, 1)] and a length [n > 0]. *)
Lemma floor_mass_bounds (m : Q) (n : nat) :
  0 <= m -> m < 1 -> (0 < n)%nat ->
  (0 <= np_floor (m * inject_Z (Z.of_nat n)) < Z.of_nat n)%Z.
Proof.
  intros H0 H1 Hn. unfold np_floor.
  set (x := m * inject_Z (Z.of_nat n)).
  assert (Hn' : 0 < inject_Z (Z.of_nat n)).
  { change 0 with (inject_Z 0). rewrite <- Zlt_Qlt. lia. }
  split.
  - change 0%Z with (Qfloor 0). apply Qfloor_resp_le.
    unfold x. apply Qmult_le_0_compat; [exact H0|now apply Qlt_le_weak].
  - rewrite Zlt_Qlt. apply Qle_lt_trans with x; [apply Qfloor_le|].
    unfold x. rewrite <- (Qmult_1_l (inject_Z (Z.of_nat n))) at 2.
    apply Qmult_lt_compat_r; assumption.
Qed.

Lemma floor_mass_mono (m1 m2 : Q) (n : nat) :
  m1 <= m2 ->
  (np_floor (m1 * inject_Z (Z.of_nat n)) <= np_floor (m2 * inject_Z (Z.of_nat n)))%Z.
Proof.
  intros H. unfold np_floor. apply Qfloor_resp_le.
  apply Qmult_le_compat_r; [exact H|].
  change 0 with (inject_Z 0). rewrite <- Zle_Qle. lia.
Qed.

(** The run of [hdi_of_mcmc] when the increment [k = floor(m * n)] is
    below [n]: the interval starts at the first window of least width
    and ends [k] positions later. *)
Lemma hdi_of_mcmc_window (samples : list Q) (m : Q) (k : nat) :
  np_floor (m * inject_Z (len samples)) = Z.of_nat k ->
  (k < length samples)%nat ->
  exists i,
    first_min (window_widths (np_sort samples) k) i /\
    hdi_of_mcmc samples m =
    Ok (nth i (np_sort samples) 0, nth (i + k) (np_sort samples) 0).
Proof.
  intros Hk Hlt.
  set (s := np_sort samples).
  assert (Hs : length s = length samples) by apply np_sort_length.
  destruct (np_argmin_spec (window_widths s k)) as (i & Harg & Hmin).
  { intros E. apply (f_equal (@length Q)) in E.
    rewrite window_widths_length in E. simpl in E. lia. }
  exists i. split; [exact Hmin|].
  assert (Hi : (i < length s - k)%nat).
  { destruct Hmin as (Hi & _). now rewrite window_widths_length in Hi. }
  unfold hdi_of_mcmc. fold s.
  replace (len samples =? 0)%Z with false
    by (symmetry; apply Z.eqb_neq; unfold len; lia).
  simpl negb. unfold assert, Python.bind at 1.
  replace (len s) with (len samples) by (unfold len; now rewrite Hs).
  rewrite Hk.
  replace (len samples) with (len s) by (unfold len; now rewrite Hs).
  rewrite np_sub_slices by (unfold len; lia).
  rewrite Nat2Z.id. unfold Python.bind at 1. rewrite Harg.
  unfold Python.bind at 1.
  rewrite getitem_nth by lia. unfold Python.bind at 1.
  rewrite <- Nat2Z.inj_add, getitem_nth by lia.
  reflexivity.
Qed.

End HdiFacts.

Section WindowFacts.

Lemma filter_length_perm (f : Q -> bool) (l l' : list Q) :
  Permutation l l' -> length (filter f l) = length (filter f l').
Proof.
  induction 1 as [|x l l' _ IH|x y l|l l' l'' _ IH1 _ IH2]; simpl.
  - reflexivity.
  - destruct (f x); simpl; now rewrite IH.
  - destruct (f x), (f y); reflexivity.
  - now rewrite IH1.
Qed.

(** An ascending list has at least [k + 1] elements between its
    elements at positions [i] and [i + k]. *)
Lemma count_in_window (s : list Q) (i k : nat) :
  StronglySorted Qle s -> (i + k < length s)%nat ->
  (Z.of_nat k + 1 <= count_in (nth i s 0%Q) (nth (i + k) s 0%Q) s)%Z.
Proof.
  intros Hs Hik. unfold count_in, len.
  set (f := fun x => Qle_bool (nth i s 0) x && Qle_bool x (nth (i + k) s 0)).
  rewrite <- (firstn_skipn i s) at 1.
  rewrite <- (firstn_skipn (S k) (skipn i s)).
  rewrite !filter_app, !length_app.
  assert (Hall : forallb f (firstn (S k) (skipn i s)) = true).
  { apply forallb_forall. intros x Hx.
    destruct (In_nth _ _ 0 Hx) as (j & Hj & <-).
    rewrite length_firstn, length_skipn in Hj.
    rewrite nth_firstn, nth_skipn.
    destruct (Nat.ltb_spec j (S k)) as [_|H]; [|lia].
    unfold f. apply andb_true_intro. split; apply Qle_bool_iff.
    - apply sorted_nth_le; [exact Hs|lia|lia].
    - apply sorted_nth_le; [exact Hs|lia|lia]. }
  rewrite (forallb_filter_id _ _ Hall), length_firstn, length_skipn. lia.
Qed.

(** [find] on an ascending range returns the least index that passes. *)
Lemma find_seq_first (p : nat -> bool) (w i : nat) :
  (i < w)%nat -> p i = true -> (forall j, (j < i)%nat -> p j = false) ->
  find p (seq 0 w) = Some i.
Proof.
  intros Hi Hp Hfirst.
  assert (G : forall n start, (start <= i)%nat -> (i < start + n)%nat ->
              find p (seq start n) = Some i).
  { induction n as [|n IH]; intros start H1 H2; [lia|]. simpl.
    destruct (Nat.eq_dec start i) as [->|Hne].
    - now rewrite Hp.
    - rewrite (Hfirst start) by lia. apply IH; lia. }
  apply G; lia.
Qed.

Lemma np_sub_nil_l (b : list Q) :
  np_sub [] b = Ok [] \/ exists e, np_sub [] b = Raise e.
Proof.
  destruct b as [|y [|z r]].
  - left; reflexivity.
  - left; reflexivity.
  - right; eexists; reflexivity.
Qed.

(** When the increment reaches the length there is no window and
    [hdi_of_mcmc] raises. *)
Lemma hdi_of_mcmc_no_window (samples : list Q) (m : Q) :
  (len samples <= np_floor (m * inject_Z (len samples)))%Z ->
  returned (hdi_of_mcmc samples m) = None.
Proof.
  intros Hk. unfold hdi_of_mcmc.
  destruct (negb (len samples =? 0)%Z); [|reflexivity].
  unfold assert, Python.bind at 1.
  rewrite len_np_sort.
  set (k := np_floor (m * inject_Z (len samples))) in *.
  assert (E : slice_from (np_sort samples) k = []).
  { unfold slice_from, clamp.
    destruct (Z.ltb_spec k 0) as [H|_]; [unfold len in Hk; lia|].
    apply skipn_all2. rewrite np_sort_length. unfold len in Hk. lia. }
  rewrite E.
  destruct (np_sub_nil_l (slice_to (np_sort samples) (len samples - k)))
    as [-> | (e & ->)]; reflexivity.
Qed.

End WindowFacts.

(** ** Properties of the highest density interval *)

Section HdiProperties.

Variable sample_vec : list Q.
Hypothesis non_empty : sample_vec <> [].

Let sorted_pts := np_sort sample_vec.

Lemma sample_length_pos : (0 < length sample_vec)%nat.
Proof. destruct sample_vec; [congruence|simpl; lia]. Qed.

(** The increment of a mass in [[0, 1)], as a natural number below the
    number of samples. *)
Lemma increment_in_range (m : Q) :
  0 <= m -> m < 1 ->
  exists k, np_floor (m * inject_Z (len sample_vec)) = Z.of_nat k /\
            (k < length sample_vec)%nat.
Proof.
  intros H0 H1.
  destruct (floor_mass_bounds m (length sample_vec) H0 H1 sample_length_pos) as [Hlo Hhi].
  exists (Z.to_nat (np_floor (m * inject_Z (len sample_vec)))).
  unfold len in *. split; lia.
Qed.

Lemma hdi_of_mcmc_returns (m : Q) :
  0 <= m -> m < 1 ->
  exists k i,
    np_floor (m * inject_Z (len sample_vec)) = Z.of_nat k /\
    (k < length sample_vec)%nat /\
    first_min (window_widths sorted_pts k) i /\
    (i + k < length sorted_pts)%nat /\
    hdi_of_mcmc sample_vec m = Ok (nth i sorted_pts 0, nth (i + k) sorted_pts 0).
Proof.
  intros H0 H1.
  destruct (increment_in_range m H0 H1) as (k & Hk & Hlt).
  destruct (hdi_of_mcmc_window sample_vec m k Hk Hlt) as (i & Hmin & Hrun).
  exists k, i. repeat split; try assumption; try apply Hmin.
  destruct Hmin as (Hi & _). rewrite window_widths_length in Hi.
  unfold sorted_pts in *. lia.
Qed.

End HdiProperties.

(** C10. For a non-empty sample of length [n] and a credible mass strictly
    between 0 and 1, every index of [hdi_of_mcmc] is in bounds: the
    increment [floor(m * n)] is at most [n - 1], the array of widths has at
    least one entry, its argmin is defined, [min_idx + floor(m * n)] is at
    most [n - 1], both accesses succeed and the function returns the pair. *)
Theorem hdi_of_mcmc_indices_in_bounds (sample_vec : list Q) (cred_mass : Q) :
  sample_vec <> [] -> 0 < cred_mass -> cred_mass < 1 ->
  let sorted_pts := np_sort sample_vec in
  let n := len sorted_pts in
  let ci_idx_inc := np_floor (cred_mass * inject_Z n) in
  (0 <= ci_idx_inc <= n - 1)%Z /\
  exists ci_width min_idx lo hi,
    np_sub (slice_from sorted_pts ci_idx_inc) (slice_to sorted_pts (n - ci_idx_inc))
    = Ok ci_width /\
    (1 <= len ci_width)%Z /\
    np_argmin ci_width = Ok min_idx /\
    (0 <= min_idx)%Z /\ (min_idx + ci_idx_inc <= n - 1)%Z /\
    getitem sorted_pts min_idx = Ok lo /\
    getitem sorted_pts (min_idx + ci_idx_inc) = Ok hi /\
    hdi_of_mcmc sample_vec cred_mass = Ok (lo, hi).
Proof.
  intros Hne H0 H1 sorted_pts n ci_idx_inc.
  destruct (hdi_of_mcmc_returns sample_vec Hne cred_mass (Qlt_le_weak _ _ H0) H1)
    as (k & i & Hk & Hlt & Hmin & Hik & Hrun).
  fold sorted_pts in Hmin, Hik, Hrun.
  assert (Hn : n = len sample_vec) by apply len_np_sort.
  assert (Hinc : ci_idx_inc = Z.of_nat k) by (unfold ci_idx_inc; now rewrite Hn).
  assert (Hlen : length sorted_pts = length sample_vec) by apply np_sort_length.
  rewrite Hinc. unfold n, len. split; [lia|].
  exists (window_widths sorted_pts k), (Z.of_nat i),
    (nth i sorted_pts 0), (nth (i + k) sorted_pts 0).
  split.
  { rewrite <- (Nat2Z.id k) at 3. apply np_sub_slices. unfold len. lia. }
  split.
  { unfold len. rewrite window_widths_length. lia. }
  split.
  { destruct (np_argmin_spec (window_widths sorted_pts k)) as (j & Harg & Hj).
    - intros E. destruct Hmin as (Hi & _). rewrite E in Hi. simpl in Hi. lia.
    - now rewrite (first_min_unique _ _ _ Hmin Hj). }
  split; [lia|]. split; [lia|]. split.
  { apply getitem_nth. lia. }
  split.
  { rewrite <- Nat2Z.inj_add. apply getitem_nth. lia. }
  exact Hrun.
Qed.

Lemma hdi_of_mcmc_indices_in_bounds_witness :
  let sorted_pts := np_sort draws in
  let n := len sorted_pts in
  let ci_idx_inc := np_floor ((1 # 2) * inject_Z n) in
  (0 <= ci_idx_inc <= n - 1)%Z /\
  exists ci_width min_idx lo hi,
    np_sub (slice_from sorted_pts ci_idx_inc) (slice_to sorted_pts (n - ci_idx_inc))
    = Ok ci_width /\
    (1 <= len ci_width)%Z /\
    np_argmin ci_width = Ok min_idx /\
    (0 <= min_idx)%Z /\ (min_idx + ci_idx_inc <= n - 1)%Z /\
    getitem sorted_pts min_idx = Ok lo /\
    getitem sorted_pts (min_idx + ci_idx_inc) = Ok hi /\
    hdi_of_mcmc draws (1 # 2) = Ok (lo, hi).
Proof.
  apply (hdi_of_mcmc_indices_in_bounds draws (1 # 2));
    [discriminate | reflexivity | reflexivity].
Defined.

(** C4. For a non-empty sample and a credible mass in (0,1), the interval
    returned by [hdi_of_mcmc] has [hdi_min <= hdi_max], and at least
    [floor(m * n)] of the [n] samples lie in [[hdi_min, hdi_max]]. *)
Theorem hdi_of_mcmc_invariant (sample_vec : list Q) (cred_mass : Q) :
  sample_vec <> [] -> 0 < cred_mass -> cred_mass < 1 ->
  exists lo hi,
    hdi_of_mcmc sample_vec cred_mass = Ok (lo, hi) /\
    lo <= hi /\
    (np_floor (cred_mass * inject_Z (len sample_vec)) <= count_in lo hi sample_vec)%Z.
Proof.
  intros Hne H0 H1.
  destruct (hdi_of_mcmc_returns sample_vec Hne cred_mass (Qlt_le_weak _ _ H0) H1)
    as (k & i & Hk & Hlt & Hmin & Hik & Hrun).
  pose proof (np_sort_sorted sample_vec) as Hsorted.
  exists (nth i (np_sort sample_vec) 0), (nth (i + k) (np_sort sample_vec) 0).
  split; [exact Hrun|]. split.
  - apply sorted_nth_le; [exact Hsorted|lia|exact Hik].
  - rewrite Hk.
    pose proof (count_in_window (np_sort sample_vec) i k Hsorted Hik) as Hcount.
    unfold count_in, len in *.
    rewrite (filter_length_perm _ _ _ (np_sort_perm sample_vec)) in Hcount.
    lia.
Qed.

Lemma hdi_of_mcmc_invariant_witness :
  exists lo hi,
    hdi_of_mcmc draws (1 # 2) = Ok (lo, hi) /\
    lo <= hi /\
    (np_floor ((1 # 2) * inject_Z (len draws)) <= count_in lo hi draws)%Z.
Proof.
  apply (hdi_of_mcmc_invariant draws (1 # 2));
    [discriminate | reflexivity | reflexivity].
Defined.

(** C6. For a fixed non-empty sample and credible masses [m1 <= m2] in
    (0,1), the width [hdi_max - hdi_min] at [m2] is at least the width at
    [m1]. *)
Theorem hdi_of_mcmc_width_monotone (sample_vec : list Q) (m1 m2 : Q) :
  sample_vec <> [] -> 0 < m1 -> m1 <= m2 -> m2 < 1 ->
  exists lo1 hi1 lo2 hi2,
    hdi_of_mcmc sample_vec m1 = Ok (lo1, hi1) /\
    hdi_of_mcmc sample_vec m2 = Ok (lo2, hi2) /\
    hi1 - lo1 <= hi2 - lo2.
Proof.
  intros Hne H0 H12 H1.
  assert (H1' : m1 < 1) by (apply Qle_lt_trans with m2; assumption).
  assert (H0' : 0 <= m2) by (apply Qle_trans with m1; [now apply Qlt_le_weak|assumption]).
  destruct (hdi_of_mcmc_returns sample_vec Hne m1 (Qlt_le_weak _ _ H0) H1')
    as (k1 & i1 & Hk1 & Hlt1 & Hmin1 & Hik1 & Hrun1).
  destruct (hdi_of_mcmc_returns sample_vec Hne m2 H0' H1)
    as (k2 & i2 & Hk2 & Hlt2 & Hmin2 & Hik2 & Hrun2).
  set (s := np_sort sample_vec) in *.
  assert (Hk : (k1 <= k2)%nat).
  { pose proof (floor_mass_mono m1 m2 (length sample_vec) H12) as H.
    unfold len in Hk1, Hk2. rewrite Hk1, Hk2 in H. lia. }
  exists (nth i1 s 0), (nth (i1 + k1) s 0), (nth i2 s 0), (nth (i2 + k2) s 0).
  split; [exact Hrun1|]. split; [exact Hrun2|].
  destruct Hmin1 as (Hi1 & Hleast & _).
  rewrite window_widths_length in Hi1.
  assert (Hi2 : (i2 < length s - k1)%nat) by lia.
  specialize (Hleast i2). rewrite window_widths_length in Hleast.
  specialize (Hleast Hi2).
  rewrite (window_widths_nth s k1 i1 Hi1), (window_widths_nth s k1 i2 Hi2) in Hleast.
  assert (Hup : nth (i2 + k1) s 0 <= nth (i2 + k2) s 0).
  { apply sorted_nth_le; [apply np_sort_sorted|lia|exact Hik2]. }
  Lqa.lra.
Qed.

Lemma hdi_of_mcmc_width_monotone_witness :
  exists lo1 hi1 lo2 hi2,
    hdi_of_mcmc draws (1 # 2) = Ok (lo1, hi1) /\
    hdi_of_mcmc draws (4 # 5) = Ok (lo2, hi2) /\
    hi1 - lo1 <= hi2 - lo2.
Proof.
  apply (hdi_of_mcmc_width_monotone draws (1 # 2) (4 # 5));
    [discriminate | reflexivity | discriminate | reflexivity].
Defined.

(** C2. For a non-empty sample and a credible mass [m], [hdi_of_mcmc]
    returns exactly the result of the reference algorithm: sort ascending,
    [k = floor(m * n)], [w = n - k], the widths [sorted[i+k] - sorted[i]]
    for [i] in [[0, w)], the lowest index [i*] of minimal width, and the
    pair [(sorted[i*], sorted[i*+k])]; where the reference has no start
    index, [hdi_of_mcmc] raises. *)
Theorem hdi_of_mcmc_is_reference (sample_vec : list Q) (cred_mass : Q) :
  sample_vec <> [] -> 0 <= cred_mass ->
  returned (hdi_of_mcmc sample_vec cred_mass) = hdi_reference sample_vec cred_mass.
Proof.
  intros Hne H0.
  pose proof (sample_length_pos sample_vec Hne) as Hpos.
  set (kz := np_floor (cred_mass * inject_Z (len sample_vec))).
  assert (Hkz : (0 <= kz)%Z).
  { unfold kz, np_floor. change 0%Z with (Qfloor 0). apply Qfloor_resp_le.
    apply Qmult_le_0_compat; [exact H0|].
    change 0 with (inject_Z 0). rewrite <- Zle_Qle. unfold len. lia. }
  assert (Hk : kz = Z.of_nat (Z.to_nat kz)) by lia.
  unfold hdi_reference. rewrite np_sort_length.
  fold (len sample_vec). unfold np_floor in kz. fold kz.
  set (k := Z.to_nat kz) in *.
  set (s := np_sort sample_vec).
  destruct (Nat.lt_ge_cases k (length sample_vec)) as [Hlt|Hge].
  - destruct (hdi_of_mcmc_window sample_vec cred_mass k Hk Hlt)
      as (i & (Hi & Hleast & Hfirst) & Hrun).
    fold s in Hi, Hleast, Hfirst, Hrun.
    rewrite window_widths_length in Hi, Hleast.
    assert (Hs : length s = length sample_vec) by apply np_sort_length.
    rewrite Hrun. simpl returned.
    rewrite (find_seq_first _ (length sample_vec - k) i).
    + reflexivity.
    + lia.
    + apply forallb_forall. intros j Hj. apply in_seq in Hj.
      apply Qle_bool_iff.
      rewrite <- (window_widths_nth s k i), <- (window_widths_nth s k j) by lia.
      apply Hleast. lia.
    + intros j Hj.
      apply not_true_is_false. intros Hall.
      rewrite forallb_forall in Hall.
      assert (Hin : In i (seq 0 (length sample_vec - k))) by (apply in_seq; lia).
      specialize (Hall i Hin). apply Qle_bool_iff in Hall.
      rewrite <- (window_widths_nth s k i), <- (window_widths_nth s k j) in Hall by lia.
      specialize (Hfirst j Hj).
      apply (Qlt_irrefl (nth i (window_widths s k) 0)).
      eapply Qlt_le_trans; eauto.
  - rewrite hdi_of_mcmc_no_window by (unfold np_floor; fold kz; unfold len; lia).
    replace (length sample_vec - k)%nat with 0%nat by lia.
    reflexivity.
Qed.

Lemma hdi_of_mcmc_is_reference_witness :
  returned (hdi_of_mcmc draws (1 # 2)) = hdi_reference draws (1 # 2).
Proof.
  apply (hdi_of_mcmc_is_reference draws (1 # 2)); discriminate.
Defined.

(** ** The sample statistics *)

Section GridFacts.

Lemma np_min_spec (a : list Q) :
  a <> [] -> exists m, np_min a = Ok m /\ least_of a m.
Proof.
  destruct a as [|x r]; [congruence|]. intros _.
  eexists. split; [reflexivity|].
  revert x. induction r as [|y r IH]; intros x; simpl.
  - split; [now left|]. intros v [<-|[]]. apply Qle_refl.
  - destruct (IH (if Qle_bool x y then x else y)) as [Hin Hle].
    split.
    + destruct Hin as [Hin|Hin]; [|now right; right].
      rewrite <- Hin. destruct (Qle_bool x y); [now left|now right; left].
    + assert (Hxy : (if Qle_bool x y then x else y) <= x /\
                    (if Qle_bool x y then x else y) <= y).
      { destruct (Qle_bool x y) eqn:E.
        - apply Qle_bool_iff in E. split; [apply Qle_refl|exact E].
        - split; [|apply Qle_refl].
          destruct (Qlt_le_dec y x) as [H|H]; [now apply Qlt_le_weak|].
          apply Qle_bool_iff in H. congruence. }
      intros v [<-|[<-|Hv]].
      * eapply Qle_trans; [apply Hle; now left|apply Hxy].
      * eapply Qle_trans; [apply Hle; now left|apply Hxy].
      * apply Hle. now right.
Qed.

Lemma np_max_spec (a : list Q) :
  a <> [] -> exists m, np_max a = Ok m /\ greatest_of a m.
Proof.
  destruct a as [|x r]; [congruence|]. intros _.
  eexists. split; [reflexivity|].
  revert x. induction r as [|y r IH]; intros x; simpl.
  - split; [now left|]. intros v [<-|[]]. apply Qle_refl.
  - destruct (IH (if Qle_bool y x then x else y)) as [Hin Hle].
    split.
    + destruct Hin as [Hin|Hin]; [|now right; right].
      rewrite <- Hin. destruct (Qle_bool y x); [now left|now right; left].
    + assert (Hxy : x <= (if Qle_bool y x then x else y) /\
                    y <= (if Qle_bool y x then x else y)).
      { destruct (Qle_bool y x) eqn:E.
        - apply Qle_bool_iff in E. split; [apply Qle_refl|exact E].
        - split; [|apply Qle_refl].
          destruct (Qlt_le_dec x y) as [H|H]; [now apply Qlt_le_weak|].
          apply Qle_bool_iff in H. congruence. }
      intros v [<-|[<-|Hv]].
      * eapply Qle_trans; [apply Hxy|apply Hle; now left].
      * eapply Qle_trans; [apply Hxy|apply Hle; now left].
      * apply Hle. now right.
Qed.

Lemma np_linspace_length (start stop : Q) (num : nat) :
  length (np_linspace start stop num) = num.
Proof.
  destruct num as [|[|d]]; [reflexivity|reflexivity|].
  unfold np_linspace. rewrite length_app, length_map, length_seq. simpl. lia.
Qed.

Lemma np_linspace_inner (start stop : Q) (d i : nat) :
  (i <= d)%nat ->
  nth i (np_linspace start stop (S (S d))) 0 =
  start + inject_Z (Z.of_nat i) * ((stop - start) / inject_Z (Z.of_nat (S d))).
Proof.
  intros Hi. unfold np_linspace.
  set (g := fun i : nat =>
              start + inject_Z (Z.of_nat i) * ((stop - start) / inject_Z (Z.of_nat (S d)))).
  rewrite app_nth1 by (rewrite length_map, length_seq; lia).
  rewrite (nth_indep _ 0 (g 0%nat)) by (rewrite length_map, length_seq; lia).
  rewrite (map_nth g), seq_nth by lia. reflexivity.
Qed.

Lemma np_linspace_last (start stop : Q) (d : nat) :
  nth (S d) (np_linspace start stop (S (S d))) 0 = stop.
Proof.
  unfold np_linspace.
  rewrite app_nth2 by (rewrite length_map, length_seq; lia).
  rewrite length_map, length_seq, Nat.sub_diag. reflexivity.
Qed.

(** [np.linspace(start, stop, num)] for [num >= 2]. *)
Lemma np_linspace_equally_spaced (start stop : Q) (d : nat) :
  equally_spaced (np_linspace start stop (S (S d))) start stop (S (S d)).
Proof.
  assert (Hd : ~ inject_Z (Z.of_nat (S d)) == 0).
  { unfold Qeq. simpl Qnum. simpl Qden. lia. }
  unfold equally_spaced. split; [apply np_linspace_length|].
  replace (S (S d) - 1)%nat with (S d) by lia.
  split; [|split].
  - rewrite np_linspace_inner by lia. simpl inject_Z. ring.
  - now rewrite np_linspace_last.
  - intros i Hi.
    destruct (Nat.eq_dec i d) as [->|Hne].
    + rewrite np_linspace_last, np_linspace_inner by lia.
      set (n := inject_Z (Z.of_nat (S d))) in *.
      replace (inject_Z (Z.of_nat d)) with (inject_Z (Z.of_nat (S d) - 1))
        by (f_equal; lia).
      unfold Zminus. rewrite inject_Z_plus, inject_Z_opp. fold n.
      change (inject_Z 1) with 1. field. exact Hd.
    + rewrite !np_linspace_inner by lia.
      replace (Z.of_nat (S i)) with (Z.of_nat i + 1)%Z by lia.
      rewrite inject_Z_plus. change (inject_Z 1) with 1. ring.
Qed.

End GridFacts.

Section OneElement.

Variable kde_fit : list Q -> result Kernel.

Lemma hdi_of_mcmc_one_element (x : Q) :
  hdi_of_mcmc [x] default_cred_mass = Ok (x, x).
Proof. reflexivity. Qed.

(** A sample of one element passes [hdi_of_mcmc] and [np.mean] and is
    rejected by the constructor of the density estimate. *)
Lemma calculate_sample_statistics_one_element (x : Q) :
  calculate_sample_statistics kde_fit [x] =
  Raise (ValueError "`dataset` input should have multiple elements.").
Proof.
  unfold calculate_sample_statistics.
  rewrite hdi_of_mcmc_one_element. reflexivity.
Qed.

End OneElement.

(** C7. Summarizing an empty sample fails: the guard of [hdi_of_mcmc],
    the first call of [calculate_sample_statistics], raises the assertion
    error for a sample without points (the empty-sample error of the
    specification) and no result is returned. *)
Theorem calculate_sample_statistics_empty :
  (forall cred_mass,
     hdi_of_mcmc [] cred_mass = Raise (AssertionError "need points to find HDI")) /\
  (forall kde_fit,
     calculate_sample_statistics kde_fit [] =
     Raise (AssertionError "need points to find HDI")).
Proof.
  split; intros; reflexivity.
Qed.

(** C5, as the code has it. For the single-element sample [[7.0]] the
    interval is [hdi_min = hdi_max = 7.0] and the mean is [7.0], but
    [calculate_sample_statistics] raises the [ValueError] of
    [gaussian_kde], which rejects a dataset of one element: no mode is
    returned. *)
Theorem single_point_statistics :
  hdi_of_mcmc [7] default_cred_mass = Ok (7, 7) /\
  np_mean [7] == 7 /\
  forall kde_fit,
    calculate_sample_statistics kde_fit [7] =
    Raise (ValueError "`dataset` input should have multiple elements.").
Proof.
  split; [apply hdi_of_mcmc_one_element|]. split; [reflexivity|].
  intros kde_fit. apply calculate_sample_statistics_one_element.
Qed.

(** C5 fails as stated: whatever the estimator, summarizing [[7.0]] does
    not return statistics. *)
Lemma single_point_summary_raises :
  ~ (exists kde_fit stats, calculate_sample_statistics kde_fit [7] = Ok stats).
Proof.
  intros (kde_fit & stats & H).
  rewrite calculate_sample_statistics_one_element in H. discriminate H.
Qed.

(** C9, as the code has it. For every sample on which the density
    estimate is constructed (the constructor asks for at least two
    elements), [calculate_sample_statistics] returns, and its mode is
    the first point of greatest estimated density among exactly 512
    equally spaced points from [min - 3*bw*bw] to [max + 3*bw*bw], where
    [bw] is the covariance factor of the estimate. *)
Theorem mode_is_first_grid_maximum
  (kde_fit : list Q -> result Kernel) (sample_vec : list Q) (kernel : Kernel) :
  gaussian_kde kde_fit sample_vec = Ok kernel ->
  let bw := covariance_factor kernel in
  exists lo hi x j stats,
    least_of sample_vec lo /\
    greatest_of sample_vec hi /\
    equally_spaced x (lo - 3 * bw * bw) (hi + 3 * bw * bw) 512 /\
    first_max (evaluate kernel x) j /\
    calculate_sample_statistics kde_fit sample_vec = Ok stats /\
    mode stats = nth j x 0.
Proof.
  intros Hkde bw.
  assert (Hne : sample_vec <> []).
  { intros ->. discriminate Hkde. }
  assert (H0 : 0 <= default_cred_mass) by discriminate.
  assert (H1 : default_cred_mass < 1) by reflexivity.
  destruct (hdi_of_mcmc_returns sample_vec Hne default_cred_mass H0 H1)
    as (k & i & _ & _ & _ & _ & Hrun).
  destruct (np_min_spec sample_vec Hne) as (lo & Hlo & Hleast).
  destruct (np_max_spec sample_vec Hne) as (hi & Hhi & Hgreatest).
  set (x := np_linspace (lo - 3 * bw * bw) (hi + 3 * bw * bw) 512).
  assert (Hx : length x = 512%nat) by apply np_linspace_length.
  destruct (np_argmax_spec (evaluate kernel x)) as (j & Harg & Hmax).
  { intros E. apply (f_equal (@length Q)) in E.
    unfold evaluate in E. rewrite length_map, Hx in E. discriminate E. }
  assert (Hj : (j < length x)%nat).
  { destruct Hmax as (Hj & _). unfold evaluate in Hj. now rewrite length_map in Hj. }
  exists lo, hi, x, j.
  eexists. split; [exact Hleast|]. split; [exact Hgreatest|].
  split; [apply np_linspace_equally_spaced|]. split; [exact Hmax|].
  split.
  - unfold calculate_sample_statistics.
    rewrite Hrun. unfold Python.bind at 1. cbv beta iota zeta.
    rewrite Hkde. unfold Python.bind at 1.
    rewrite Hlo. unfold Python.bind at 1.
    rewrite Hhi. unfold Python.bind at 1.
    fold bw. fold x.
    rewrite Harg. unfold Python.bind at 1.
    rewrite (getitem_nth x j Hj). unfold Python.bind.
    reflexivity.
  - reflexivity.
Qed.

Lemma mode_is_first_grid_maximum_witness :
  exists kernel,
    gaussian_kde bump_fit draws = Ok kernel /\
    let bw := covariance_factor kernel in
    exists lo hi x j stats,
      least_of draws lo /\
      greatest_of draws hi /\
      equally_spaced x (lo - 3 * bw * bw) (hi + 3 * bw * bw) 512 /\
      first_max (evaluate kernel x) j /\
      calculate_sample_statistics bump_fit draws = Ok stats /\
      mode stats = nth j x 0.
Proof.
  eexists. split; [reflexivity|].
  apply (mode_is_first_grid_maximum bump_fit draws). reflexivity.
Defined.

(** C9 fails as stated for every non-empty sample: a sample of one
    element is not empty and summarizing it returns no mode. *)
Lemma no_mode_for_one_element :
  [2] <> [] /\
  ~ (exists kde_fit stats, calculate_sample_statistics kde_fit [2] = Ok stats).
Proof.
  split; [discriminate|].
  intros (kde_fit & stats & H).
  rewrite calculate_sample_statistics_one_element in H. discriminate H.
Qed.

(** ** The model builder *)

Section ModelFacts.

Lemma two_entries {V : Type} (data : dict V) :
  length data = 2%nat ->
  exists k1 v1 k2 v2, data = [(k1, v1); (k2, v2)].
Proof.
  destruct data as [|[k1 v1] [|[k2 v2] [|e r]]]; simpl; try discriminate.
  intros _. now exists k1, v1, k2, v2.
Qed.

Variables (k1 k2 : string) (v1 v2 : ndarray).
Hypothesis distinct : k1 <> k2.
Hypothesis ordered : String.leb k1 k2 = true.

Lemma not_ordered_back : String.leb k2 k1 = false.
Proof.
  destruct (String.leb k2 k1) eqn:E; [|reflexivity].
  exfalso. apply distinct. now apply String.leb_antisym.
Qed.

Lemma sorted_keys (data : dict ndarray) :
  data = [(k1, v1); (k2, v2)] \/ data = [(k2, v2); (k1, v1)] ->
  sorted (keys data) = [k1; k2] /\
  dict_get data k1 = Ok v1 /\ dict_get data k2 = Ok v2.
Proof.
  assert (E12 : String.eqb k1 k2 = false) by now apply String.eqb_neq.
  assert (E21 : String.eqb k2 k1 = false) by (apply String.eqb_neq; congruence).
  intros [-> | ->]; unfold keys, sorted; simpl.
  - now rewrite ordered, !String.eqb_refl, E12.
  - now rewrite not_ordered_back, !String.eqb_refl, E21.
Qed.

Lemma pooled_two_groups (data : dict ndarray) :
  data = [(k1, v1); (k2, v2)] \/ data = [(k2, v2); (k1, v1)] ->
  pooled data = flat v1 ++ flat v2.
Proof.
  intros H. destruct (sorted_keys data H) as (Hs & H1 & H2).
  unfold pooled. rewrite Hs. simpl. rewrite H1, H2. now rewrite app_nil_r.
Qed.

(** The run of [make_model] up to the assertions on the dimensions and
    the block that builds the model. *)
Lemma make_model_arrays (data : dict ndarray) :
  data = [(k1, v1); (k2, v2)] \/ data = [(k2, v2); (k1, v1)] ->
  make_model data =
  (assert (ndim v1 =? 1)%nat "" ;;
   assert (ndim v2 =? 1)%nat "" ;;
   model_block (np_mean_float (pooled data)) (np_std_float (pooled data)) k1 v1 k2 v2).
Proof.
  intros H. rewrite (pooled_two_groups data H).
  destruct (sorted_keys data H) as (Hs & H1 & H2).
  unfold make_model.
  replace (len data =? 2)%Z with true by (destruct H as [-> | ->]; reflexivity).
  unfold assert at 1, Python.bind at 1.
  rewrite Hs. unfold unpack2, Python.bind at 1.
  rewrite H1. unfold Python.bind at 1.
  rewrite H2. unfold Python.bind at 1.
  reflexivity.
Qed.

End ModelFacts.

Section BlockFacts.

Lemma existsb_eqb_false (n : string) (l : list string) :
  ~ In n l -> existsb (String.eqb n) l = false.
Proof.
  intros H. apply not_true_is_false. intros E.
  apply existsb_exists in E as (x & Hx & Ex).
  apply String.eqb_eq in Ex. subst x. contradiction.
Qed.

Lemma existsb_eqb_true (n : string) (l : list string) :
  In n l -> existsb (String.eqb n) l = true.
Proof.
  intros H. apply existsb_exists. exists n. split; [exact H|apply String.eqb_refl].
Qed.

(** The declaration of an observed variable under a name that is free. *)
Lemma declare_observed_fresh (n : string) (d : distribution) (y : ndarray)
  (model : Model) :
  ~ In n (named_vars model) ->
  declare n d (Some y) model = Ok (RandomVariable n, model ++ [likelihood n d y]).
Proof.
  intros H. unfold declare. simpl transformed_name. simpl app.
  simpl add_random_variable. now rewrite (existsb_eqb_false n _ H).
Qed.

(** The declaration of an observed variable under a name that is taken. *)
Lemma declare_observed_taken (n : string) (d : distribution) (y : ndarray)
  (model : Model) :
  In n (named_vars model) ->
  declare n d (Some y) model =
  Raise (ValueError (String.append "Variable name " (String.append n " already exists."))).
Proof.
  intros H. unfold declare. simpl transformed_name. simpl app.
  simpl add_random_variable. now rewrite (existsb_eqb_true n _ H).
Qed.

Variables (mu_m sigma : R) (name1 name2 : string) (y1 y2 : ndarray).

Let latents : Model := firstn 5 (two_group_specification mu_m sigma name1 y1 name2 y2).
Let nu : tensor := Add (RandomVariable "nu_minus_one") (num 1).
Let likelihood1 : distribution :=
  StudentT nu (RandomVariable "group1_mean") (Pow (RandomVariable "group1_std") (-2)).
Let likelihood2 : distribution :=
  StudentT nu (RandomVariable "group2_mean") (Pow (RandomVariable "group2_std") (-2)).

(** With a finite mean and standard deviation the five latent variables
    are declared, and the two likelihoods are what is left of the block. *)
Lemma model_block_likelihoods :
  model_block (Some mu_m) (Some sigma) name1 y1 name2 y2 =
  match declare name1 likelihood1 (Some y1) latents with
  | Ok (_, model) =>
      match declare name2 likelihood2 (Some y2) model with
      | Ok (_, model') => Ok model'
      | Raise e => Raise e
      end
  | Raise e => Raise e
  end.
Proof.
  change (model_block (Some mu_m) (Some sigma) name1 y1 name2 y2)
    with (match
             match declare name1 likelihood1 (Some y1) latents with
             | Ok (_, model) =>
                 match declare name2 likelihood2 (Some y2) model with
                 | Ok (_, model') => Ok (tt, model')
                 | Raise e => Raise e
                 end
             | Raise e => Raise e
             end
           with
           | Ok (_, model) => Ok model
           | Raise e => Raise e
           end).
  destruct (declare name1 likelihood1 (Some y1) latents) as [[t model]|e];
    [|reflexivity].
  destruct (declare name2 likelihood2 (Some y2) model) as [[t' model']|e];
    reflexivity.
Qed.

Lemma named_vars_latents : named_vars latents = model_variable_names.
Proof. reflexivity. Qed.

Lemma model_block_Ok :
  ~ In name1 model_variable_names -> ~ In name2 model_variable_names ->
  name1 <> name2 ->
  model_block (Some mu_m) (Some sigma) name1 y1 name2 y2 =
  Ok (two_group_specification mu_m sigma name1 y1 name2 y2).
Proof.
  intros H1 H2 Hne. rewrite model_block_likelihoods.
  rewrite declare_observed_fresh by (now rewrite named_vars_latents).
  rewrite declare_observed_fresh; [reflexivity|].
  unfold named_vars. rewrite flat_map_app. fold (named_vars latents).
  rewrite named_vars_latents. simpl flat_map.
  intros Hin. apply in_app_or in Hin as [Hin|[Hin|[]]]; [contradiction|congruence].
Qed.

Lemma model_block_first_clash :
  In name1 model_variable_names ->
  model_block (Some mu_m) (Some sigma) name1 y1 name2 y2 =
  Raise (ValueError (String.append "Variable name "
                       (String.append name1 " already exists."))).
Proof.
  intros H1. rewrite model_block_likelihoods.
  now rewrite declare_observed_taken by (now rewrite named_vars_latents).
Qed.

Lemma model_block_second_clash :
  ~ In name1 model_variable_names ->
  In name2 model_variable_names \/ name2 = name1 ->
  model_block (Some mu_m) (Some sigma) name1 y1 name2 y2 =
  Raise (ValueError (String.append "Variable name "
                       (String.append name2 " already exists."))).
Proof.
  intros H1 H2. rewrite model_block_likelihoods.
  rewrite declare_observed_fresh by (now rewrite named_vars_latents).
  rewrite declare_observed_taken; [reflexivity|].
  unfold named_vars. rewrite flat_map_app. fold (named_vars latents).
  rewrite named_vars_latents. simpl flat_map.
  apply in_or_app. destruct H2 as [H2| ->]; [now left|right; now left].
Qed.

End BlockFacts.

Section BlockResults.

Variables (name1 name2 : string) (y1 y2 : ndarray).

(** Without a finite mean, or without a finite standard deviation, the
    block raises when the first prior that needs it is declared. *)
Lemma model_block_nan_mean (sigma : float) :
  exists msg, model_block None sigma name1 y1 name2 y2 = Raise (AttributeError msg).
Proof. eexists. reflexivity. Qed.

Lemma model_block_nan_std (mu_m : R) :
  exists msg, model_block (Some mu_m) None name1 y1 name2 y2 = Raise (AttributeError msg).
Proof. eexists. reflexivity. Qed.

(** A model that the block returns. *)
Lemma model_block_returns (mu_m sigma : float) (model : Model) :
  model_block mu_m sigma name1 y1 name2 y2 = Ok model ->
  exists m s,
    mu_m = Some m /\ sigma = Some s /\
    ~ In name1 model_variable_names /\ ~ In name2 model_variable_names /\
    model = two_group_specification m s name1 y1 name2 y2.
Proof.
  intros Hrun.
  destruct mu_m as [m|].
  2:{ destruct (model_block_nan_mean sigma) as (msg & E). congruence. }
  destruct sigma as [s|].
  2:{ destruct (model_block_nan_std m) as (msg & E). congruence. }
  destruct (in_dec string_dec name1 model_variable_names) as [H1|H1].
  { rewrite model_block_first_clash in Hrun by exact H1. discriminate Hrun. }
  destruct (in_dec string_dec name2 model_variable_names) as [H2|H2].
  { rewrite model_block_second_clash in Hrun by auto. discriminate Hrun. }
  destruct (string_dec name2 name1) as [E|E].
  { rewrite model_block_second_clash in Hrun by auto. discriminate Hrun. }
  rewrite model_block_Ok in Hrun by auto. injection Hrun as <-.
  exists m, s. auto.
Qed.

End BlockResults.

Section FloatFacts.

Lemma np_mean_float_non_empty (a : list Q) :
  a <> [] -> np_mean_float a = Some (Q2R (np_mean a)).
Proof. destruct a; [congruence|reflexivity]. Qed.

Lemma np_std_float_non_empty (a : list Q) :
  a <> [] -> np_std_float a = Some (np_std a).
Proof. destruct a; [congruence|reflexivity]. Qed.

Lemma np_mean_float_finite (a : list Q) (m : R) :
  np_mean_float a = Some m -> a <> [].
Proof. destruct a; [discriminate|discriminate]. Qed.

End FloatFacts.

Section TwoGroups.

Variable data : dict ndarray.
Hypothesis well_formed : dict_wf data.

(** A dataset of two groups, its names in ascending order. *)
Lemma two_groups_ordered :
  length data = 2%nat ->
  exists name1 y1 name2 y2,
    name1 <> name2 /\ String.leb name1 name2 = true /\
    (data = [(name1, y1); (name2, y2)] \/ data = [(name2, y2); (name1, y1)]).
Proof.
  intros Hlen.
  destruct (two_entries data Hlen) as (k1 & v1 & k2 & v2 & E).
  assert (Hne : k1 <> k2).
  { pose proof well_formed as Hwf. unfold dict_wf, keys in Hwf.
    rewrite E in Hwf. simpl in Hwf.
    inversion Hwf as [|? ? Hnotin _]; subst.
    intros ->. apply Hnotin. now left. }
  destruct (String.leb_total k1 k2) as [H|H].
  - exists k1, v1, k2, v2. auto.
  - exists k2, v2, k1, v1. repeat split; [congruence|exact H|now right].
Qed.

Lemma make_model_wrong_length :
  length data <> 2%nat ->
  make_model data = Raise (AssertionError "There must be exactly two data arrays").
Proof.
  intros Hlen. unfold make_model.
  replace (len data =? 2)%Z with false
    by (symmetry; apply Z.eqb_neq; unfold len; lia).
  reflexivity.
Qed.

(** The model that [make_model] returns for two one-dimensional groups
    with observations, under names that the model does not use itself. *)
Lemma make_model_run :
  length data = 2%nat ->
  (forall k v, In (k, v) data -> ndim v = 1%nat) ->
  pooled data <> [] ->
  (forall k, In k (keys data) -> ~ In k model_variable_names) ->
  exists name1 y1 name2 y2,
    In (name1, y1) data /\ In (name2, y2) data /\
    name1 <> name2 /\ String.leb name1 name2 = true /\
    pooled data = flat y1 ++ flat y2 /\
    make_model data =
    Ok (two_group_specification
          (Q2R (np_mean (pooled data))) (np_std (pooled data)) name1 y1 name2 y2).
Proof.
  intros Hlen Hdim Hne Hnames.
  destruct (two_groups_ordered Hlen)
    as (name1 & y1 & name2 & y2 & Hneq & Hle & Hdata).
  assert (Hin : In (name1, y1) data /\ In (name2, y2) data).
  { destruct Hdata as [-> | ->]; simpl; auto. }
  destruct Hin as [Hin1 Hin2].
  exists name1, y1, name2, y2.
  repeat split; try assumption.
  - now apply pooled_two_groups with (k1 := name1) (k2 := name2).
  - rewrite (make_model_arrays name1 name2 y1 y2 Hneq Hle data Hdata).
    rewrite (Hdim _ _ Hin1), (Hdim _ _ Hin2).
    rewrite (np_mean_float_non_empty _ Hne), (np_std_float_non_empty _ Hne).
    simpl Python.bind.
    apply model_block_Ok; [| |exact Hneq].
    + apply Hnames. unfold keys. apply (in_map fst _ _ Hin1).
    + apply Hnames. unfold keys. apply (in_map fst _ _ Hin2).
Qed.

End TwoGroups.

Lemma two_groups_wf : dict_wf two_groups.
Proof.
  unfold dict_wf, keys; simpl.
  repeat constructor; simpl; intuition discriminate.
Qed.


Lemma three_groups_wf : dict_wf three_groups.
Proof.
  unfold dict_wf, keys; simpl.
  repeat constructor; simpl; intuition discriminate.
Qed.


Lemma one_dimensional_instance (data : dict ndarray) :
  forallb (fun e => (ndim (snd e) =? 1)%nat) data = true ->
  forall k v, In (k, v) data -> ndim v = 1%nat.
Proof.
  intros H k v Hin. rewrite forallb_forall in H.
  apply Nat.eqb_eq. apply (H (k, v) Hin).
Qed.

Lemma free_names_instance (data : dict ndarray) :
  forallb (fun k => negb (existsb (String.eqb k) model_variable_names)) (keys data) = true ->
  forall k, In k (keys data) -> ~ In k model_variable_names.
Proof.
  intros H k Hk Hin. rewrite forallb_forall in H.
  specialize (H k Hk). apply negb_true_iff in H.
  now rewrite (existsb_eqb_true k _ Hin) in H.
Qed.




Section StandardDeviation.



End StandardDeviation.




(** C8, as the code has it. [make_model] fails with the assertion error
    (the input-shape error of the specification) whenever the dataset
    does not contain exactly two entries, and with the same kind of error
    whenever the array of a group is not one-dimensional. *)
Theorem make_model_shape_errors (data : dict ndarray) :
  dict_wf data ->
  length data <> 2%nat \/ (exists k v, In (k, v) data /\ ndim v <> 1%nat) ->
  exists msg, make_model data = Raise (AssertionError msg).
Proof.
  intros Hwf Hbad.
  destruct (Nat.eq_dec (length data) 2) as [Hlen|Hlen].
  2:{ eexists. now apply make_model_wrong_length. }
  destruct Hbad as [Hbad|(k & v & Hin & Hdim)]; [contradiction|].
  destruct (two_groups_ordered data Hwf Hlen)
    as (name1 & y1 & name2 & y2 & Hne & Hle & Hdata).
  rewrite (make_model_arrays name1 name2 y1 y2 Hne Hle data Hdata).
  assert (Hv : v = y1 \/ v = y2).
  { destruct Hdata as [-> | ->]; simpl in Hin;
      destruct Hin as [E|[E|[]]]; inversion E; auto. }
  destruct (Nat.eqb_spec (ndim y1) 1) as [H1|H1].
  - destruct (Nat.eqb_spec (ndim y2) 1) as [H2|H2].
    + destruct Hv as [-> | ->]; contradiction.
    + eexists. reflexivity.
  - eexists. reflexivity.
Qed.

Lemma make_model_shape_errors_witness :
  exists msg, make_model three_groups = Raise (AssertionError msg).
Proof.
  apply (make_model_shape_errors three_groups).
  - exact three_groups_wf.
  - left. discriminate.
Defined.

(** C8 fails as stated for a group without observations: the array of
    group ["a"] of [empty_group] is empty, and [make_model] returns a
    model. *)
Lemma empty_group_builds_a_model :
  (exists k v, In (k, v) empty_group /\ flat v = []) /\
  exists model, make_model empty_group = Ok model.
Proof.
  split.
  - exists "a"%string, (array1 []). split; [now left|reflexivity].
  - destruct (make_model_run empty_group) as (name1 & y1 & name2 & y2 & H).
    + unfold dict_wf, keys; simpl.
      repeat constructor; simpl; intuition discriminate.
    + reflexivity.
    + apply one_dimensional_instance. reflexivity.
    + discriminate.
    + apply free_names_instance. reflexivity.
    + eexists. apply H.
Qed.

(** ** Further properties of the highest density interval *)

Section ResultFacts.

Lemma bind_Ok {A B : Type} (c : result A) (k : A -> result B) (b : B) :
  Python.bind c k = Ok b -> exists a, c = Ok a /\ k a = Ok b.
Proof.
  destruct c as [a|e]; simpl; [|discriminate].
  intros H. now exists a.
Qed.

Lemma getitem_In {A : Type} (a : list A) (i : Z) (x : A) :
  getitem a i = Ok x -> In x a.
Proof.
  unfold getitem. cbv zeta.
  destruct (_ <? 0)%Z; [discriminate|].
  destruct (nth_error a _) as [y|] eqn:E; [|discriminate].
  intros H. injection H as <-. eapply nth_error_In, E.
Qed.

Lemma np_sort_In (a : list Q) (x : Q) : In x (np_sort a) <-> In x a.
Proof.
  split; apply Permutation_in;
    [apply np_sort_perm|apply Permutation_sym, np_sort_perm].
Qed.

(** The first element of the sorted sample is a least sample. *)
Lemma np_sort_head_least (a : list Q) :
  a <> [] -> least_of a (nth 0 (np_sort a) 0).
Proof.
  intros Hne.
  assert (Hlen : (0 < length (np_sort a))%nat).
  { rewrite np_sort_length. destruct a; [congruence|simpl; lia]. }
  split.
  - apply np_sort_In, nth_In, Hlen.
  - intros v Hv. apply np_sort_In in Hv.
    destruct (In_nth _ _ 0 Hv) as (j & Hj & <-).
    apply sorted_nth_le; [apply np_sort_sorted|lia|exact Hj].
Qed.

(** The last element of the sorted sample is a greatest sample. *)
Lemma np_sort_last_greatest (a : list Q) :
  a <> [] -> greatest_of a (nth (length a - 1) (np_sort a) 0).
Proof.
  intros Hne.
  assert (Hlen : (0 < length a)%nat) by (destruct a; [congruence|simpl; lia]).
  split.
  - apply np_sort_In, nth_In. rewrite np_sort_length. lia.
  - intros v Hv. apply np_sort_In in Hv.
    destruct (In_nth _ _ 0 Hv) as (j & Hj & <-).
    rewrite np_sort_length in Hj.
    apply sorted_nth_le; [apply np_sort_sorted|lia|rewrite np_sort_length; lia].
Qed.

Lemma np_argmin_value_error (a : list Q) (e : exception) :
  np_argmin a = Raise e -> exists msg, e = ValueError msg.
Proof.
  destruct a; simpl; [|discriminate].
  intros H. injection H as <-. eauto.
Qed.


End ResultFacts.

(** X1. Whatever the credible mass, a pair returned by [hdi_of_mcmc]
    consists of two of the samples: the function never returns a value
    that is not an element of [sample_vec]. *)
Theorem hdi_of_mcmc_endpoints_are_samples
  (sample_vec : list Q) (cred_mass lo hi : Q) :
  hdi_of_mcmc sample_vec cred_mass = Ok (lo, hi) ->
  In lo sample_vec /\ In hi sample_vec.
Proof.
  unfold hdi_of_mcmc. intros H.
  apply bind_Ok in H as (_ & _ & H).
  apply bind_Ok in H as (ci_width & _ & H).
  apply bind_Ok in H as (min_idx & _ & H).
  apply bind_Ok in H as (x & Hx & H).
  apply bind_Ok in H as (y & Hy & H).
  injection H as <- <-.
  split; apply np_sort_In; eapply getitem_In; eassumption.
Qed.

Lemma hdi_of_mcmc_endpoints_are_samples_witness : In 1 draws /\ In 3 draws.
Proof.
  apply (hdi_of_mcmc_endpoints_are_samples draws (1 # 2) 1 3). reflexivity.
Defined.



(** X3. The two cases in which the increment [floor(m * n)] is 0 whatever
    the rounding of the product: for a mass of zero on a non-empty
    sample, and for a mass in [[0, 1)] on a sample of one element,
    [hdi_of_mcmc] returns the interval of width zero at the smallest
    sample. *)
Theorem hdi_of_mcmc_zero_increment (sample_vec : list Q) (cred_mass : Q) :
  sample_vec <> [] -> 0 <= cred_mass -> cred_mass < 1 ->
  cred_mass == 0 \/ length sample_vec = 1%nat ->
  exists x, least_of sample_vec x /\ hdi_of_mcmc sample_vec cred_mass = Ok (x, x).
Proof.
  intros Hne H0 H1 Hcase.
  pose proof (sample_length_pos sample_vec Hne) as Hpos.
  set (q := cred_mass * inject_Z (len sample_vec)).
  assert (Hq : 0 <= q /\ q < 1).
  { unfold q. destruct Hcase as [E|E].
    - rewrite E. split; [Lqa.lra|reflexivity].
    - unfold len. rewrite E. change (inject_Z (Z.of_nat 1)) with 1.
      split; Lqa.lra. }
  assert (Hk : np_floor q = Z.of_nat 0).
  { unfold np_floor. simpl Z.of_nat.
    assert (Hlo : (0 <= Qfloor q)%Z).
    { change 0%Z with (Qfloor 0). apply Qfloor_resp_le, Hq. }
    assert (Hhi : (Qfloor q < 1)%Z).
    { rewrite Zlt_Qlt. apply Qle_lt_trans with q; [apply Qfloor_le|apply Hq]. }
    lia. }
  destruct (hdi_of_mcmc_window sample_vec cred_mass 0 Hk Hpos)
    as (i & (Hi & _ & Hfirst) & Hrun).
  rewrite window_widths_length in Hi.
  assert (Ei : i = 0%nat).
  { destruct i as [|i]; [reflexivity|]. exfalso.
    specialize (Hfirst 0%nat (Nat.lt_0_succ i)).
    rewrite !window_widths_nth in Hfirst by lia.
    rewrite !Nat.add_0_r in Hfirst. Lqa.lra. }
  subst i. exists (nth 0 (np_sort sample_vec) 0).
  split; [now apply np_sort_head_least|exact Hrun].
Qed.

Lemma hdi_of_mcmc_zero_increment_witness :
  exists x, least_of [7] x /\ hdi_of_mcmc [7] (9 # 10) = Ok (x, x).
Proof.
  apply (hdi_of_mcmc_zero_increment [7] (9 # 10));
    [discriminate | discriminate | reflexivity | right; reflexivity].
Defined.

(** X4. For a non-empty sample and a mass [m] in [[0, 1)], the interval
    returned by [hdi_of_mcmc] holds at least [floor(m * n) + 1] of the
    samples: the two ends of the window and the samples between them. *)
Theorem hdi_of_mcmc_window_count (sample_vec : list Q) (cred_mass : Q) :
  sample_vec <> [] -> 0 <= cred_mass -> cred_mass < 1 ->
  exists lo hi,
    hdi_of_mcmc sample_vec cred_mass = Ok (lo, hi) /\
    (np_floor (cred_mass * inject_Z (len sample_vec)) + 1
     <= count_in lo hi sample_vec)%Z.
Proof.
  intros Hne H0 H1.
  destruct (hdi_of_mcmc_returns sample_vec Hne cred_mass H0 H1)
    as (k & i & Hk & Hlt & _ & Hik & Hrun).
  pose proof (np_sort_sorted sample_vec) as Hsorted.
  exists (nth i (np_sort sample_vec) 0), (nth (i + k) (np_sort sample_vec) 0).
  split; [exact Hrun|].
  rewrite Hk.
  pose proof (count_in_window (np_sort sample_vec) i k Hsorted Hik) as Hcount.
  unfold count_in, len in *.
  rewrite (filter_length_perm _ _ _ (np_sort_perm sample_vec)) in Hcount.
  exact Hcount.
Qed.

Lemma hdi_of_mcmc_window_count_witness :
  exists lo hi,
    hdi_of_mcmc draws (4 # 5) = Ok (lo, hi) /\
    (np_floor ((4 # 5) * inject_Z (len draws)) + 1 <= count_in lo hi draws)%Z.
Proof.
  apply (hdi_of_mcmc_window_count draws (4 # 5));
    [discriminate | discriminate | reflexivity].
Defined.

Section OrderFacts.

Lemma Qle_bool_false (x y : Q) : Qle_bool x y = false -> y < x.
Proof.
  intros E. destruct (Qlt_le_dec y x) as [H|H]; [exact H|].
  apply Qle_bool_iff in H. congruence.
Qed.

Lemma Forall2_Qeq_refl (l : list Q) : Forall2 Qeq l l.
Proof. induction l; constructor; [apply Qeq_refl|assumption]. Qed.

Lemma Forall2_Qeq_trans (l1 l2 l3 : list Q) :
  Forall2 Qeq l1 l2 -> Forall2 Qeq l2 l3 -> Forall2 Qeq l1 l3.
Proof.
  intros H. revert l3. induction H as [|x y r1 r2 Hxy _ IH]; intros l3 H23.
  - exact H23.
  - inversion H23 as [|? z ? r3 Hyz Hr]; subst.
    constructor; [now rewrite Hxy|now apply IH].
Qed.

Lemma Forall2_Qeq_nth (l l' : list Q) :
  Forall2 Qeq l l' -> forall i, nth i l 0 == nth i l' 0.
Proof.
  induction 1 as [|x y r r' Hxy _ IH]; intros [|i]; simpl;
    try apply Qeq_refl; auto.
Qed.

Lemma insert_Qeq (x x' : Q) (l l' : list Q) :
  x == x' -> Forall2 Qeq l l' -> Forall2 Qeq (insert x l) (insert x' l').
Proof.
  intros Hx. induction 1 as [|y y' r r' Hy Hr IH]; simpl.
  - repeat constructor. exact Hx.
  - rewrite (Qleb_comp x x' Hx y y' Hy).
    destruct (Qle_bool x' y'); repeat constructor; assumption.
Qed.

(** Two insertions into a list commute, up to the representation of
    equal rationals. *)
Lemma insert_insert (x y : Q) (l : list Q) :
  Forall2 Qeq (insert x (insert y l)) (insert y (insert x l)).
Proof.
  induction l as [|z r IH]; simpl.
  - destruct (Qle_bool x y) eqn:Exy, (Qle_bool y x) eqn:Eyx.
    + apply Qle_bool_iff in Exy, Eyx.
      assert (x == y) by now apply Qle_antisym.
      repeat constructor; [assumption|now symmetry].
    + apply Forall2_Qeq_refl.
    + apply Forall2_Qeq_refl.
    + apply Qle_bool_false in Exy, Eyx. exfalso. Lqa.lra.
  - destruct (Qle_bool y z) eqn:Eyz, (Qle_bool x z) eqn:Exz; simpl.
    + rewrite Exz, Eyz.
      destruct (Qle_bool x y) eqn:Exy, (Qle_bool y x) eqn:Eyx.
      * apply Qle_bool_iff in Exy, Eyx.
        assert (x == y) by now apply Qle_antisym.
        constructor; [assumption|].
        constructor; [now symmetry|apply Forall2_Qeq_refl].
      * apply Forall2_Qeq_refl.
      * apply Forall2_Qeq_refl.
      * apply Qle_bool_false in Exy, Eyx. exfalso. Lqa.lra.
    + rewrite Exz, Eyz.
      destruct (Qle_bool x y) eqn:Exy.
      * apply Qle_bool_iff in Exy, Eyz. apply Qle_bool_false in Exz.
        exfalso. Lqa.lra.
      * apply Forall2_Qeq_refl.
    + rewrite Exz, Eyz.
      destruct (Qle_bool y x) eqn:Eyx.
      * apply Qle_bool_iff in Eyx, Exz. apply Qle_bool_false in Eyz.
        exfalso. Lqa.lra.
      * apply Forall2_Qeq_refl.
    + rewrite Exz, Eyz. constructor; [apply Qeq_refl|exact IH].
Qed.

(** Sorting two arrangements of the same samples gives the same array,
    up to the representation of equal rationals. *)
Lemma np_sort_arrangement (l l' : list Q) :
  Permutation l l' -> Forall2 Qeq (np_sort l) (np_sort l').
Proof.
  induction 1 as [|x l l' _ IH|x y l|l l' l'' _ IH1 _ IH2]; simpl.
  - constructor.
  - apply insert_Qeq; [apply Qeq_refl|exact IH].
  - apply insert_insert.
  - eapply Forall2_Qeq_trans; eassumption.
Qed.

Lemma first_min_Qeq (w w' : list Q) (i : nat) :
  length w = length w' -> (forall j, nth j w 0 == nth j w' 0) ->
  first_min w i -> first_min w' i.
Proof.
  intros Hlen Hnth (Hi & Hleast & Hfirst).
  split; [lia|]. split.
  - intros j Hj. rewrite <- !Hnth. apply Hleast. lia.
  - intros j Hj. rewrite <- !Hnth. now apply Hfirst.
Qed.

Lemma window_widths_Qeq (s s' : list Q) (k : nat) :
  length s = length s' -> (forall j, nth j s 0 == nth j s' 0) ->
  forall j, nth j (window_widths s k) 0 == nth j (window_widths s' k) 0.
Proof.
  intros Hlen Hnth j.
  destruct (Nat.lt_ge_cases j (length s - k)) as [Hj|Hj].
  - rewrite !window_widths_nth by lia. now rewrite !Hnth.
  - rewrite !nth_overflow by (rewrite window_widths_length; lia).
    apply Qeq_refl.
Qed.

End OrderFacts.

(** X5. The order of the draws does not matter: for a mass in [[0, 1)],
    [hdi_of_mcmc] returns equal intervals on a non-empty sample and on
    any rearrangement of it. *)
Theorem hdi_of_mcmc_order_independent
  (sample_vec rearranged : list Q) (cred_mass : Q) :
  sample_vec <> [] -> Permutation sample_vec rearranged ->
  0 <= cred_mass -> cred_mass < 1 ->
  exists lo hi lo' hi',
    hdi_of_mcmc sample_vec cred_mass = Ok (lo, hi) /\
    hdi_of_mcmc rearranged cred_mass = Ok (lo', hi') /\
    lo == lo' /\ hi == hi'.
Proof.
  intros Hne Hperm H0 H1.
  assert (Hlen : length rearranged = length sample_vec)
    by (symmetry; now apply Permutation_length).
  destruct (increment_in_range sample_vec Hne cred_mass H0 H1) as (k & Hk & Hlt).
  destruct (hdi_of_mcmc_window sample_vec cred_mass k Hk Hlt) as (i & Hmin & Hrun).
  destruct (hdi_of_mcmc_window rearranged cred_mass k) as (i' & Hmin' & Hrun').
  { unfold len in *. now rewrite Hlen. }
  { lia. }
  pose proof (Forall2_Qeq_nth _ _ (np_sort_arrangement _ _ Hperm)) as Hnth.
  assert (Hs : length (np_sort sample_vec) = length (np_sort rearranged))
    by (rewrite !np_sort_length; lia).
  assert (E : i = i').
  { apply (first_min_unique (window_widths (np_sort rearranged) k)); [|exact Hmin'].
    eapply first_min_Qeq; [| |exact Hmin].
    - rewrite !window_widths_length. lia.
    - now apply window_widths_Qeq. }
  subst i'.
  exists (nth i (np_sort sample_vec) 0), (nth (i + k) (np_sort sample_vec) 0),
    (nth i (np_sort rearranged) 0), (nth (i + k) (np_sort rearranged) 0).
  repeat split; try assumption; apply Hnth.
Qed.

Lemma hdi_of_mcmc_order_independent_witness :
  exists lo hi lo' hi',
    hdi_of_mcmc draws (1 # 2) = Ok (lo, hi) /\
    hdi_of_mcmc (rev draws) (1 # 2) = Ok (lo', hi') /\
    lo == lo' /\ hi == hi'.
Proof.
  apply (hdi_of_mcmc_order_independent draws (rev draws) (1 # 2));
    [discriminate | apply Permutation_rev | discriminate | reflexivity].
Defined.

Section NegativeMass.

Variable s : list Q.
Hypothesis two_elements : (2 <= length s)%nat.

Lemma skipn_last : skipn (length s - 1) s = [nth (length s - 1) s 0].
Proof.
  assert (Hlen : length (skipn (length s - 1) s) = 1%nat)
    by (rewrite length_skipn; lia).
  destruct (skipn (length s - 1) s) as [|x [|y r]] eqn:E; try discriminate.
  f_equal. change x with (nth 0 [x] 0). rewrite <- E, nth_skipn.
  f_equal. lia.
Qed.

(** The array of widths when the increment is [-1]: the slice [s[-1:]]
    holds the last element, which is broadcast against the whole array. *)
Lemma np_sub_last_slice :
  np_sub (slice_from s (-1)) (slice_to s (len s - -1)) =
  Ok (map (fun y => nth (length s - 1) s 0 - y) s).
Proof.
  unfold slice_from, slice_to, clamp, len.
  change (-1 <? 0)%Z with true. cbv iota.
  destruct (Z.ltb_spec (Z.of_nat (length s) - -1) 0) as [H|_]; [lia|].
  replace (Z.to_nat (Z.of_nat (length s) + -1)) with (length s - 1)%nat by lia.
  replace (Nat.min (Z.to_nat (Z.of_nat (length s) - -1)) (length s))
    with (length s) by lia.
  rewrite firstn_all, skipn_last.
  unfold np_sub. simpl length.
  destruct (Nat.eqb_spec 1 (length s)) as [H|_]; [lia|].
  reflexivity.
Qed.

End NegativeMass.

(** X6. A negative credible mass is not rejected. For a sample of at
    least two elements and a mass [m < 0] with [m * n >= -1] the increment
    is [-1]: the last element is broadcast against the sorted array, the
    index [min_idx - 1] wraps around, and [hdi_of_mcmc] returns a pair
    whose first component is a greatest sample and whose second component
    is not above it. *)
Theorem hdi_of_mcmc_negative_mass (sample_vec : list Q) (cred_mass : Q) :
  (2 <= length sample_vec)%nat ->
  cred_mass < 0 -> -1 <= cred_mass * inject_Z (len sample_vec) ->
  exists lo hi,
    hdi_of_mcmc sample_vec cred_mass = Ok (lo, hi) /\
    greatest_of sample_vec lo /\ hi <= lo.
Proof.
  intros Hlen Hneg Hlow.
  set (s := np_sort sample_vec).
  assert (Hs : length s = length sample_vec) by apply np_sort_length.
  assert (Hs2 : (2 <= length s)%nat) by lia.
  assert (Hne : sample_vec <> []) by (intros ->; simpl in Hlen; lia).
  pose proof (np_sort_sorted sample_vec) as Hsorted. fold s in Hsorted.
  set (q := cred_mass * inject_Z (len sample_vec)) in *.
  assert (Hk : np_floor q = (-1)%Z).
  { unfold np_floor.
    assert (Hlo : (-1 <= Qfloor q)%Z).
    { change (-1)%Z with (Qfloor (-1)). now apply Qfloor_resp_le. }
    assert (Hhi : (Qfloor q < 0)%Z).
    { rewrite Zlt_Qlt. apply Qle_lt_trans with q; [apply Qfloor_le|].
      unfold q.
      assert (Hn : 0 < inject_Z (len sample_vec)).
      { change 0 with (inject_Z 0). rewrite <- Zlt_Qlt. unfold len. lia. }
      setoid_replace (inject_Z 0) with (0 * inject_Z (len sample_vec)) by ring.
      now apply Qmult_lt_compat_r. }
    lia. }
  set (last := nth (length s - 1) s 0).
  set (w := map (fun y => last - y) s).
  assert (Hw : length w = length s) by apply length_map.
  assert (Hwnth : forall j, (j < length s)%nat -> nth j w 0 = last - nth j s 0).
  { intros j Hj. unfold w.
    rewrite (nth_indep _ 0 ((fun y => last - y) 0)) by (rewrite length_map; lia).
    now rewrite (map_nth (fun y => last - y)). }
  destruct (np_argmin_spec w) as (i & Harg & (Hi & Hleast & _)).
  { intros E. rewrite E in Hw. simpl in Hw. lia. }
  rewrite Hw in Hi, Hleast.
  assert (Htop : last <= nth i s 0).
  { specialize (Hleast (length s - 1)%nat).
    rewrite !Hwnth in Hleast by lia. fold last in Hleast.
    assert (H : (length s - 1 < length s)%nat) by lia.
    specialize (Hleast H). Lqa.lra. }
  assert (Hrun : exists hi,
             hdi_of_mcmc sample_vec cred_mass = Ok (nth i s 0, hi) /\
             hi <= nth i s 0).
  { unfold hdi_of_mcmc. fold s.
    replace (len sample_vec =? 0)%Z with false
      by (symmetry; apply Z.eqb_neq; unfold len; lia).
    simpl negb. unfold assert, Python.bind at 1.
    replace (len s) with (len sample_vec) by (unfold len; now rewrite Hs).
    fold q. rewrite Hk.
    replace (len sample_vec) with (len s) by (unfold len; now rewrite Hs).
    rewrite (np_sub_last_slice s Hs2). fold last. fold w.
    unfold Python.bind at 1. rewrite Harg. unfold Python.bind at 1.
    rewrite (getitem_nth s i Hi). unfold Python.bind at 1.
    destruct i as [|i].
    - exists last. split; [|exact Htop].
      unfold getitem. simpl Z.add. cbv zeta.
      change (-1 <? 0)%Z with true. cbv iota.
      destruct (Z.ltb_spec (Z.of_nat (length s) + -1) 0) as [H|_]; [lia|].
      replace (Z.to_nat (Z.of_nat (length s) + -1)) with (length s - 1)%nat by lia.
      rewrite (nth_error_nth' s 0) by lia. reflexivity.
    - exists (nth i s 0). split.
      + replace (Z.of_nat (S i) + -1)%Z with (Z.of_nat i) by lia.
        rewrite (getitem_nth s i) by lia. reflexivity.
      + apply sorted_nth_le; [exact Hsorted|lia|exact Hi]. }
  destruct Hrun as (hi & Hrun & Hhi).
  exists (nth i s 0), hi. split; [exact Hrun|]. split; [|exact Hhi].
  split.
  - apply np_sort_In, nth_In, Hi.
  - intros v Hv. apply Qle_trans with last; [|exact Htop].
    destruct (np_sort_last_greatest sample_vec Hne) as [_ Hmax].
    unfold last. rewrite Hs. now apply Hmax.
Qed.

Lemma hdi_of_mcmc_negative_mass_witness :
  exists lo hi,
    hdi_of_mcmc draws (-1 # 10) = Ok (lo, hi) /\
    greatest_of draws lo /\ hi <= lo.
Proof.
  apply (hdi_of_mcmc_negative_mass draws (-1 # 10));
    [simpl; lia | reflexivity | discriminate].
Defined.

(** ** Further properties of the sample statistics *)

Section SummaryFacts.

Variable kde_fit : list Q -> result Kernel.

Lemma gaussian_kde_two_elements (sample_vec : list Q) (kernel : Kernel) :
  gaussian_kde kde_fit sample_vec = Ok kernel -> (2 <= length sample_vec)%nat.
Proof.
  unfold gaussian_kde.
  destruct (Nat.leb_spec (length sample_vec) 1) as [H|H]; [discriminate|lia].
Qed.

(** The run of [calculate_sample_statistics] on a sample for which the
    density estimate is constructed. *)
Lemma calculate_sample_statistics_run (sample_vec : list Q) (kernel : Kernel) :
  gaussian_kde kde_fit sample_vec = Ok kernel ->
  exists lo hi l h j,
    least_of sample_vec lo /\ greatest_of sample_vec hi /\
    hdi_of_mcmc sample_vec default_cred_mass = Ok (l, h) /\
    (j < 512)%nat /\
    calculate_sample_statistics kde_fit sample_vec =
    Ok {| hdi_min := l; hdi_max := h; mean := np_mean sample_vec;
          mode := nth j (np_linspace
                           (lo - 3 * covariance_factor kernel * covariance_factor kernel)
                           (hi + 3 * covariance_factor kernel * covariance_factor kernel)
                           512) 0 |}.
Proof.
  intros Hkde.
  assert (Hne : sample_vec <> []).
  { intros ->. discriminate Hkde. }
  assert (H0 : 0 <= default_cred_mass) by discriminate.
  assert (H1 : default_cred_mass < 1) by reflexivity.
  destruct (hdi_of_mcmc_returns sample_vec Hne default_cred_mass H0 H1)
    as (k & i & _ & _ & _ & _ & Hrun).
  destruct (np_min_spec sample_vec Hne) as (lo & Hlo & Hleast).
  destruct (np_max_spec sample_vec Hne) as (hi & Hhi & Hgreatest).
  set (bw := covariance_factor kernel).
  set (x := np_linspace (lo - 3 * bw * bw) (hi + 3 * bw * bw) 512).
  assert (Hx : length x = 512%nat) by apply np_linspace_length.
  destruct (np_argmax_spec (evaluate kernel x)) as (j & Harg & (Hj & _)).
  { intros E. apply (f_equal (@length Q)) in E.
    unfold evaluate in E. rewrite length_map, Hx in E. discriminate E. }
  unfold evaluate in Hj. rewrite length_map in Hj.
  exists lo, hi, (nth i (np_sort sample_vec) 0), (nth (i + k) (np_sort sample_vec) 0), j.
  split; [exact Hleast|]. split; [exact Hgreatest|]. split; [exact Hrun|].
  split; [now rewrite <- Hx|].
  unfold calculate_sample_statistics.
  rewrite Hrun. unfold Python.bind at 1. cbv beta iota zeta.
  rewrite Hkde. unfold Python.bind at 1.
  rewrite Hlo. unfold Python.bind at 1.
  rewrite Hhi. unfold Python.bind at 1.
  fold bw. fold x.
  rewrite Harg. unfold Python.bind at 1.
  rewrite (getitem_nth x j Hj). unfold Python.bind.
  reflexivity.
Qed.

Lemma calculate_sample_statistics_needs_kernel (sample_vec : list Q)
  (stats : SampleStatistics) :
  calculate_sample_statistics kde_fit sample_vec = Ok stats ->
  exists kernel, gaussian_kde kde_fit sample_vec = Ok kernel.
Proof.
  unfold calculate_sample_statistics. intros H.
  apply bind_Ok in H as ([l h] & _ & H).
  apply bind_Ok in H as (kernel & Hkde & _).
  now exists kernel.
Qed.

End SummaryFacts.

(** X7. [calculate_sample_statistics] returns statistics exactly when
    [gaussian_kde] constructs the density estimate of the sample: the
    interval, the mean, the grid and the argmax never fail once it
    exists, and without it nothing is returned. *)
Theorem calculate_sample_statistics_returns_iff
  (kde_fit : list Q -> result Kernel) (sample_vec : list Q) :
  (exists stats, calculate_sample_statistics kde_fit sample_vec = Ok stats) <->
  (exists kernel, gaussian_kde kde_fit sample_vec = Ok kernel).
Proof.
  split.
  - intros (stats & H). eapply calculate_sample_statistics_needs_kernel, H.
  - intros (kernel & H).
    destruct (calculate_sample_statistics_run kde_fit sample_vec kernel H)
      as (lo & hi & l & h & j & _ & _ & _ & _ & Hrun).
    eexists. exact Hrun.
Qed.

(** X8. A sample of fewer than two draws is never summarized: an empty
    sample raises the assertion error of [hdi_of_mcmc], a sample of one
    draw raises the [ValueError] of [gaussian_kde]. *)
Theorem calculate_sample_statistics_too_few
  (kde_fit : list Q -> result Kernel) (sample_vec : list Q) :
  (length sample_vec < 2)%nat ->
  calculate_sample_statistics kde_fit sample_vec =
  Raise (if (length sample_vec =? 0)%nat
         then AssertionError "need points to find HDI"
         else ValueError "`dataset` input should have multiple elements.").
Proof.
  intros Hlen.
  destruct sample_vec as [|x [|y r]]; [reflexivity| |simpl in Hlen; lia].
  apply calculate_sample_statistics_one_element.
Qed.

Lemma calculate_sample_statistics_too_few_witness :
  calculate_sample_statistics bump_fit [7] =
  Raise (if (length [7] =? 0)%nat
         then AssertionError "need points to find HDI"
         else ValueError "`dataset` input should have multiple elements.").
Proof.
  apply (calculate_sample_statistics_too_few bump_fit [7]). simpl. lia.
Defined.

Section RangeFacts.

Lemma Qsquare_nonneg (x : Q) : 0 <= x * x.
Proof.
  destruct (Qlt_le_dec x 0) as [H|H].
  - setoid_replace (x * x) with ((- x) * (- x)) by ring.
    apply Qmult_le_0_compat; Lqa.lra.
  - now apply Qmult_le_0_compat.
Qed.

(** Every point of [np.linspace(start, stop, num)] is between [start]
    and [stop], when [start <= stop] and [num >= 2]. *)
Lemma np_linspace_within (start stop : Q) (d i : nat) :
  start <= stop -> (i <= S d)%nat ->
  start <= nth i (np_linspace start stop (S (S d))) 0 /\
  nth i (np_linspace start stop (S (S d))) 0 <= stop.
Proof.
  intros Hle Hi.
  destruct (Nat.eq_dec i (S d)) as [->|Hne].
  - rewrite np_linspace_last. split; [exact Hle|apply Qle_refl].
  - rewrite np_linspace_inner by lia.
    set (n := inject_Z (Z.of_nat (S d))).
    set (t := inject_Z (Z.of_nat i)).
    set (step := (stop - start) / n).
    assert (Hn : 0 < n).
    { unfold n. change 0 with (inject_Z 0). rewrite <- Zlt_Qlt. lia. }
    assert (Ht0 : 0 <= t).
    { unfold t. change 0 with (inject_Z 0). rewrite <- Zle_Qle. lia. }
    assert (Htn : t <= n).
    { unfold t, n. rewrite <- Zle_Qle. lia. }
    assert (Hstep : 0 <= step).
    { unfold step. apply Qle_shift_div_l; [exact Hn|]. Lqa.lra. }
    assert (Hfull : n * step == stop - start).
    { unfold step. apply Qmult_div_r. intros E. rewrite E in Hn.
      now apply Qlt_irrefl in Hn. }
    pose proof (Qmult_le_0_compat t step Ht0 Hstep) as H1.
    pose proof (Qmult_le_compat_r t n step Htn Hstep) as H2.
    split; Lqa.lra.
Qed.

End RangeFacts.

(** X9. Whenever the density estimate of a sample is constructed, the
    interval returned by [calculate_sample_statistics] lies in the range
    of the data: [min <= hdi_min <= hdi_max <= max]. *)
Theorem interval_within_data_range
  (kde_fit : list Q -> result Kernel) (sample_vec : list Q) (kernel : Kernel) :
  gaussian_kde kde_fit sample_vec = Ok kernel ->
  exists stats lo hi,
    calculate_sample_statistics kde_fit sample_vec = Ok stats /\
    least_of sample_vec lo /\ greatest_of sample_vec hi /\
    lo <= hdi_min stats /\ hdi_min stats <= hdi_max stats /\ hdi_max stats <= hi.
Proof.
  intros Hkde.
  destruct (calculate_sample_statistics_run kde_fit sample_vec kernel Hkde)
    as (lo & hi & l & h & j & Hlo & Hhi & Hhdi & _ & Hrun).
  assert (Hne : sample_vec <> []).
  { intros ->. discriminate Hkde. }
  eexists. exists lo, hi. split; [exact Hrun|].
  split; [exact Hlo|]. split; [exact Hhi|]. simpl.
  destruct (hdi_of_mcmc_returns sample_vec Hne default_cred_mass)
    as (k & i & _ & _ & _ & Hik & Hrun'); [discriminate|reflexivity|].
  rewrite Hhdi in Hrun'. injection Hrun' as -> ->.
  repeat split.
  - apply Hlo, np_sort_In, nth_In. lia.
  - apply sorted_nth_le; [apply np_sort_sorted|lia|exact Hik].
  - apply Hhi, np_sort_In, nth_In. exact Hik.
Qed.

(** X10. Whenever the density estimate of a sample is constructed, the
    mode returned by [calculate_sample_statistics] lies in the range of
    the data padded by [3*bw*bw] on both sides. *)
Theorem mode_within_padded_range
  (kde_fit : list Q -> result Kernel) (sample_vec : list Q) (kernel : Kernel) :
  gaussian_kde kde_fit sample_vec = Ok kernel ->
  let bw := covariance_factor kernel in
  exists stats lo hi,
    calculate_sample_statistics kde_fit sample_vec = Ok stats /\
    least_of sample_vec lo /\ greatest_of sample_vec hi /\
    lo - 3 * bw * bw <= mode stats /\ mode stats <= hi + 3 * bw * bw.
Proof.
  intros Hkde bw.
  destruct (calculate_sample_statistics_run kde_fit sample_vec kernel Hkde)
    as (lo & hi & l & h & j & Hlo & Hhi & _ & Hj & Hrun).
  fold bw in Hrun.
  eexists. exists lo, hi. split; [exact Hrun|].
  split; [exact Hlo|]. split; [exact Hhi|]. simpl mode.
  apply (np_linspace_within _ _ 510 j); [|lia].
  assert (Hlohi : lo <= hi) by (apply Hlo, Hhi).
  pose proof (Qsquare_nonneg bw) as Hsq.
  Lqa.lra.
Qed.

Lemma interval_within_data_range_witness :
  exists stats lo hi,
    calculate_sample_statistics bump_fit draws = Ok stats /\
    least_of draws lo /\ greatest_of draws hi /\
    lo <= hdi_min stats /\ hdi_min stats <= hdi_max stats /\ hdi_max stats <= hi.
Proof.
  eapply (interval_within_data_range bump_fit draws). reflexivity.
Defined.

Lemma mode_within_padded_range_witness :
  exists kernel,
    gaussian_kde bump_fit draws = Ok kernel /\
    let bw := covariance_factor kernel in
    exists stats lo hi,
      calculate_sample_statistics bump_fit draws = Ok stats /\
      least_of draws lo /\ greatest_of draws hi /\
      lo - 3 * bw * bw <= mode stats /\ mode stats <= hi + 3 * bw * bw.
Proof.
  eexists. split; [reflexivity|].
  apply (mode_within_padded_range bump_fit draws). reflexivity.
Defined.

(** ** Further properties of the model builder *)

Section ArrangementFacts.

Variable data : dict ndarray.
Hypothesis well_formed : dict_wf data.
Hypothesis two : length data = 2%nat.

(** The run of [make_model] on two groups, by the dimensions of the
    arrays of the lesser and of the greater name. *)
Lemma make_model_two_groups :
  exists name1 y1 name2 y2,
    name1 <> name2 /\ String.leb name1 name2 = true /\
    sorted (keys data) = [name1; name2] /\
    dict_get data name1 = Ok y1 /\ dict_get data name2 = Ok y2 /\
    pooled data = flat y1 ++ flat y2 /\
    (forall k v, In (k, v) data <-> (k, v) = (name1, y1) \/ (k, v) = (name2, y2)) /\
    forall data', Permutation data data' ->
      make_model data' =
      (assert (ndim y1 =? 1)%nat "" ;;
       assert (ndim y2 =? 1)%nat "" ;;
       model_block (np_mean_float (flat y1 ++ flat y2))
         (np_std_float (flat y1 ++ flat y2)) name1 y1 name2 y2).
Proof.
  destruct (two_groups_ordered data well_formed two)
    as (name1 & y1 & name2 & y2 & Hne & Hle & Hdata).
  destruct (sorted_keys name1 name2 y1 y2 Hne Hle data Hdata) as (Hs & Hg1 & Hg2).
  exists name1, y1, name2, y2.
  split; [exact Hne|]. split; [exact Hle|]. split; [exact Hs|].
  split; [exact Hg1|]. split; [exact Hg2|].
  split; [exact (pooled_two_groups name1 name2 y1 y2 Hne Hle data Hdata)|].
  split.
  - intros k v. destruct Hdata as [-> | ->]; simpl; intuition congruence.
  - intros data' Hperm.
    assert (Hdata' : data' = [(name1, y1); (name2, y2)] \/
                     data' = [(name2, y2); (name1, y1)]).
    { destruct Hdata as [-> | ->];
        apply Permutation_length_2_inv in Hperm; tauto. }
    rewrite (make_model_arrays name1 name2 y1 y2 Hne Hle data' Hdata').
    now rewrite (pooled_two_groups name1 name2 y1 y2 Hne Hle data' Hdata').
Qed.

(** The groups, the names and the observations of a dataset for which
    [make_model] returns a model. *)
Lemma make_model_returns (model : Model) :
  make_model data = Ok model ->
  exists name1 y1 name2 y2 m s,
    sorted (keys data) = [name1; name2] /\
    dict_get data name1 = Ok y1 /\ dict_get data name2 = Ok y2 /\
    (forall k v, In (k, v) data <-> (k, v) = (name1, y1) \/ (k, v) = (name2, y2)) /\
    ndim y1 = 1%nat /\ ndim y2 = 1%nat /\
    np_mean_float (pooled data) = Some m /\
    ~ In name1 model_variable_names /\ ~ In name2 model_variable_names /\
    model = two_group_specification m s name1 y1 name2 y2.
Proof.
  intros Hrun.
  destruct make_model_two_groups
    as (name1 & y1 & name2 & y2 & _ & _ & Hs & Hg1 & Hg2 & Hpool & Hin & Hmodel).
  rewrite (Hmodel data (Permutation_refl data)) in Hrun.
  destruct (Nat.eqb_spec (ndim y1) 1) as [H1|H1]; [|discriminate Hrun].
  destruct (Nat.eqb_spec (ndim y2) 1) as [H2|H2]; [|discriminate Hrun].
  change (model_block (np_mean_float (flat y1 ++ flat y2))
            (np_std_float (flat y1 ++ flat y2)) name1 y1 name2 y2 = Ok model) in Hrun.
  apply model_block_returns in Hrun as (m & s & Hm & _ & Hn1 & Hn2 & ->).
  exists name1, y1, name2, y2, m, s.
  rewrite Hpool. repeat split; try assumption; apply Hin; assumption.
Qed.

End ArrangementFacts.

(** X11. The order in which the two groups were put into the dictionary
    does not matter: on a dataset and on any rearrangement of its entries
    [make_model] gives the same result (the same model, or the same
    error), since the groups are taken in the order of their sorted
    names. *)
Theorem make_model_insertion_order (data data' : dict ndarray) :
  dict_wf data -> Permutation data data' ->
  make_model data = make_model data'.
Proof.
  intros Hwf Hperm.
  pose proof (Permutation_length Hperm) as Hlen.
  destruct (Nat.eq_dec (length data) 2) as [H2|H2].
  - destruct (make_model_two_groups data Hwf H2)
      as (name1 & y1 & name2 & y2 & _ & _ & _ & _ & _ & _ & _ & Hrun).
    rewrite (Hrun data (Permutation_refl data)), (Hrun data' Hperm).
    reflexivity.
  - rewrite !make_model_wrong_length by lia. reflexivity.
Qed.

Lemma make_model_insertion_order_witness :
  make_model two_groups = make_model (rev two_groups).
Proof.
  apply (make_model_insertion_order two_groups (rev two_groups)).
  - exact two_groups_wf.
  - apply Permutation_rev.
Defined.

(** X12. What every dataset has for which [make_model] returns a model:
    exactly two entries, one-dimensional arrays, at least one
    observation, and no group under the name of one of the five latent
    variables of the model. *)
Theorem make_model_returns_only_if (data : dict ndarray) (model : Model) :
  dict_wf data ->
  make_model data = Ok model ->
  length data = 2%nat /\
  (forall k v, In (k, v) data -> ndim v = 1%nat) /\
  pooled data <> [] /\
  (forall k, In k (keys data) -> ~ In k latent_names).
Proof.
  intros Hwf Hrun.
  destruct (Nat.eq_dec (length data) 2) as [H2|H2].
  2:{ rewrite make_model_wrong_length in Hrun by exact H2. discriminate Hrun. }
  destruct (make_model_returns data Hwf H2 model Hrun)
    as (name1 & y1 & name2 & y2 & m & s & Hs & _ & _ & Hin & Hd1 & Hd2 & Hm
        & Hn1 & Hn2 & _).
  assert (Hsub : forall k, In k latent_names -> In k model_variable_names).
  { intros k Hk. unfold latent_names in Hk. unfold model_variable_names.
    simpl in Hk |- *. intuition. }
  split; [exact H2|]. split; [|split].
  - intros k v Hkv. apply Hin in Hkv as [E|E]; injection E as -> ->; assumption.
  - eapply np_mean_float_finite, Hm.
  - intros k Hk Hlat. apply Hsub in Hlat.
    unfold keys in Hk. apply in_map_iff in Hk as ([k' v] & <- & Hkv).
    apply Hin in Hkv as [E|E]; injection E as -> ->; contradiction.
Qed.

Lemma make_model_returns_only_if_witness :
  exists model,
    make_model two_groups = Ok model /\
    length two_groups = 2%nat /\
    (forall k v, In (k, v) two_groups -> ndim v = 1%nat) /\
    pooled two_groups <> [] /\
    (forall k, In k (keys two_groups) -> ~ In k latent_names).
Proof.
  eexists. split; [reflexivity|].
  eapply (make_model_returns_only_if two_groups); [exact two_groups_wf|reflexivity].
Defined.



(** X15. The likelihoods are attached to the right data: in a model that
    [make_model] returns for a dictionary, the observed random variables
    are named by the group names in sorted order, and each of them
    observes the array stored in the dataset under its own name. *)
Theorem make_model_observed_nodes (data : dict ndarray) (model : Model) :
  dict_wf data ->
  make_model data = Ok model ->
  map name (observed_nodes model) = sorted (keys data) /\
  forall n, In n (observed_nodes model) ->
    exists y, observed n = Some y /\ dict_get data (name n) = Ok y.
Proof.
  intros Hwf Hrun.
  destruct (Nat.eq_dec (length data) 2) as [H2|H2].
  2:{ rewrite make_model_wrong_length in Hrun by exact H2. discriminate Hrun. }
  destruct (make_model_returns data Hwf H2 model Hrun)
    as (name1 & y1 & name2 & y2 & m & s & Hs & Hg1 & Hg2 & _ & _ & _ & _ & _ & _ & ->).
  rewrite Hs. split; [reflexivity|].
  intros n Hn. simpl in Hn. destruct Hn as [<-|[<-|[]]].
  - exists y1. split; [reflexivity|exact Hg1].
  - exists y2. split; [reflexivity|exact Hg2].
Qed.

Lemma make_model_observed_nodes_witness :
  exists model,
    make_model two_groups = Ok model /\
    map name (observed_nodes model) = sorted (keys two_groups) /\
    forall n, In n (observed_nodes model) ->
      exists y, observed n = Some y /\ dict_get two_groups (name n) = Ok y.
Proof.
  eexists. split; [reflexivity|].
  apply (make_model_observed_nodes two_groups); [exact two_groups_wf|reflexivity].
Defined.
